(** * WeChat file organizer: a verified model of [file_organizer.py]

    The engine class [WeChatFileOrganizer] is embedded as state-passing
    functions over an explicit file system (a finite map from paths to
    nodes), an output trace (console lines and progress-callback calls)
    and the two result lists of the instance. *)

From Stdlib Require Import Ascii String QArith.
From stdpp Require Import base strings gmap list pretty.

Open Scope string_scope.
Open Scope list_scope.

(** ** Strings and [pathlib] names *)

Module Str.

(** [str.lower()] on the UTF-8 bytes of a string. The letters [A]..[Z]
    are mapped to [a]..[z]. Two characters outside ASCII have a lower
    case with an ASCII letter in it, and are mapped as Python maps them:
    U+212A KELVIN SIGN (bytes 226 132 170) to [k], and U+0130 (bytes
    196 176) to [i] followed by U+0307 (bytes 204 135). Every other
    character outside ASCII is kept: [str.lower()] may change it, but
    into characters outside ASCII again, so that a comparison of the
    result with an ASCII string, the only use [file_organizer.py] makes of
    [lower()], has the same answer. *)
Definition lower_ascii (c : ascii) : ascii :=
  let n := nat_of_ascii c in
  if (65 <=? n)%nat && (n <=? 90)%nat then ascii_of_nat (n + 32) else c.

Fixpoint lower (s : string) : string :=
  match s with
  | EmptyString => EmptyString
  | String "226" (String "132" (String "170" r)) => String "k" (lower r)
  | String "196" (String "176" r) => String "i" (String "204" (String "135" (lower r)))
  | String c r => String (lower_ascii c) (lower r)
  end.


(** [s.rfind('.')]: index of the last dot, [None] for Python's [-1]. *)
Fixpoint rfind_dot (s : string) : option nat :=
  match s with
  | EmptyString => None
  | String c r =>
      match rfind_dot r with
      | Some i => Some (S i)
      | None => if Ascii.eqb c "." then Some 0%nat else None
      end
  end.

(** [s[:i]] and [s[i:]]. *)
Fixpoint take (i : nat) (s : string) : string :=
  match i, s with
  | S j, String c r => String c (take j r)
  | _, _ => EmptyString
  end.

Fixpoint drop (i : nat) (s : string) : string :=
  match i, s with
  | S j, String _ r => drop j r
  | _, _ => s
  end.

(** [sep.join(l)]. *)
Fixpoint join (sep : string) (l : list string) : string :=
  match l with
  | [] => ""
  | [x] => x
  | x :: r => x +:+ sep +:+ join sep r
  end.

End Str.

(** A path is the list of its components ([PurePath.parts]); a file name
    is one component. *)
Abbreviation Path := (list string).

Module PathLib.


(** [dir / name] for a [name] that is one component ([is_name]); for
    another string [pathlib] drops it or splits it. *)
Definition div (dir : Path) (name : string) : Path := dir ++ [name].

(** [path.name]: the final component. *)
Definition name (p : Path) : string := List.last p "".

(** [str(path)]. *)
Definition str (p : Path) : string := Str.join "/" p.

(** The split point of [PurePath.suffix] and [PurePath.stem]: the index
    [i] of the last dot when [0 < i < len(name) - 1]. *)
Definition split_at (nm : string) : option nat :=
  match Str.rfind_dot nm with
  | Some i => if (0 <? i)%nat && (i <? String.length nm - 1)%nat then Some i else None
  | None => None
  end.

Definition suffix_of_name (nm : string) : string :=
  match split_at nm with
  | Some i => Str.drop i nm
  | None => ""
  end.

Definition stem_of_name (nm : string) : string :=
  match split_at nm with
  | Some i => Str.take i nm
  | None => nm
  end.

Definition suffix (p : Path) : string := suffix_of_name (name p).
Definition stem (p : Path) : string := stem_of_name (name p).

End PathLib.

Infix "/:" := PathLib.div (at level 40, left associativity).

(** ** The classification table ([__init__]) *)

Definition OTHER : string := "其他".

Definition file_categories : list (string * list string) :=
  [ ("图片", [".jpg"; ".jpeg"; ".png"; ".gif"; ".bmp"; ".webp"; ".svg"; ".ico"; ".tiff"]);
    ("视频", [".mp4"; ".avi"; ".mov"; ".wmv"; ".flv"; ".mkv"; ".webm"; ".m4v"; ".3gp"]);
    ("音频", [".mp3"; ".wav"; ".flac"; ".aac"; ".ogg"; ".wma"; ".m4a"; ".amr"]);
    ("文档", [".pdf"; ".doc"; ".docx"; ".txt"; ".rtf"; ".xls"; ".xlsx"; ".ppt"; ".pptx"]);
    ("压缩包", [".zip"; ".rar"; ".7z"; ".tar"; ".gz"; ".bz2"]);
    ("程序", [".exe"; ".msi"; ".dmg"; ".pkg"; ".deb"; ".rpm"; ".apk"]);
    (OTHER, []) ].

(** [suffix in extensions]. *)
Definition str_in (s : string) (l : list string) : bool :=
  bool_decide (s ∈ l).

(** The [for category, extensions in self.file_categories.items()] loop
    of [get_file_category], over the table in insertion order. *)
Fixpoint first_category (table : list (string * list string)) (sfx : string) : string :=
  match table with
  | [] => OTHER
  | (category, extensions) :: rest =>
      if negb (String.eqb category OTHER) && str_in sfx extensions
      then category
      else first_category rest sfx
  end.

Definition get_file_category (file_path : Path) : string :=
  let suffix := Str.lower (PathLib.suffix file_path) in
  first_category file_categories suffix.

(** ** The world the engine runs in *)

(** A file-system entry: a regular file with its bytes, or a directory. *)
Inductive node :=
| File (data : string)
| Dir.

Inductive exn :=
| OSError
| TypeError.

(** What the run emits: calls of the progress callback, lines given to
    [safe_print], and the lines whose tail is the text of a caught
    exception ([f"... {e}"]). *)
Inductive event :=
| Progress (current total : nat) (label : string)
| Print (text : string)
| PrintError (text : string) (e : exn).

(** What the engine cannot decide by itself during one run: the digest
    function of [hashlib], the I/O faults of the platform, the directory
    listing that [rglob] returns in this run, and the moment another
    thread calls [stop_organizing]. Every run has its own [Env]: a second
    run lists the file system the first one left. *)
Record Env := {
  md5 : string → N;                 (* the 128-bit MD5 value of the bytes *)
  read_fault : Path → bool;         (* [open(p, "rb")] or [read] raises *)
  copy_fault : Path → Path → bool;  (* [shutil.copy2(src, dst)] raises *)
  copy_partial : Path → Path → option string;
                                    (* what a copy that raises has written to [dst]
                                       by then ([None]: [dst] was not created) *)
  stat_fault : Path → bool;         (* [p.stat()] raises *)
  exists_fault : Path → bool;       (* [p.exists()] raises: the error of its [stat] is
                                       not one that [pathlib] takes for absence *)
  is_file_fault : Path → bool;      (* [p.is_file()] raises, in the same way *)
  mkdir_fault : Path → bool;        (* [os.mkdir(p)] of a missing directory raises *)
  rglob : option (list Path);       (* [list(source_dir.rglob('*'))], [None] when it raises *)
  stop_at : option nat              (* [stop_requested] becomes true once that many
                                       files have gone through the loop *)
}.

(** The immutable fields of the instance. [progress_callback] records
    whether a callback was given ([None] otherwise). *)
Record Engine := {
  source_dir : Path;
  target_dir : Path;
  progress_callback : bool
}.

(** The mutable fields of the instance, the two locals of
    [organize_files] that the loop updates, the file system and the
    output. *)
Record State := mkState {
  fs : gmap Path node;
  output : list event;
  processed_files : list Path;
  skipped_files : list Path;
  total_files : nat;
  category_stats : list (string * nat);
  total_size : Z
}.

(** [WeChatFileOrganizer(...)] on a file system: the constructor performs
    no I/O. *)
Definition init (files : gmap Path node) : State :=
  mkState files [] [] [] 0 [] 0.

(** ** A state-and-exception monad *)

Inductive result (A : Type) :=
| Ok (a : A)
| Raise (e : exn).
Arguments Ok {A} a.
Arguments Raise {A} e.

Definition M (A : Type) : Type := State → State * result A.

Definition ret {A} (a : A) : M A := λ s, (s, Ok a).
Definition raise {A} (e : exn) : M A := λ s, (s, Raise e).
Definition bind {A B} (m : M A) (k : A → M B) : M B :=
  λ s, match m s with
       | (s', Ok a) => k a s'
       | (s', Raise e) => (s', Raise e)
       end.
(** [try: m except Exception as e: h e]. *)
Definition try_except {A} (m : M A) (h : exn → M A) : M A :=
  λ s, match m s with
       | (s', Ok a) => (s', Ok a)
       | (s', Raise e) => h e s'
       end.
Definition get : M State := λ s, (s, Ok s).
Definition modify (f : State → State) : M unit := λ s, (f s, Ok tt).

Declare Scope organizer_scope.
Delimit Scope organizer_scope with org.
Notation "x <- m ;; k" := (bind m (λ x, k))
  (at level 100, m at next level, right associativity) : organizer_scope.
Notation "m ;;; k" := (bind m (λ _, k))
  (at level 100, right associativity) : organizer_scope.
Open Scope organizer_scope.

Definition set_fs (f : gmap Path node) (s : State) : State :=
  mkState f (output s) (processed_files s) (skipped_files s) (total_files s)
          (category_stats s) (total_size s).
Definition emit (e : event) (s : State) : State :=
  mkState (fs s) (output s ++ [e]) (processed_files s) (skipped_files s) (total_files s)
          (category_stats s) (total_size s).
Definition append_processed (p : Path) (s : State) : State :=
  mkState (fs s) (output s) (processed_files s ++ [p]) (skipped_files s) (total_files s)
          (category_stats s) (total_size s).
Definition append_skipped (p : Path) (s : State) : State :=
  mkState (fs s) (output s) (processed_files s) (skipped_files s ++ [p]) (total_files s)
          (category_stats s) (total_size s).
Definition set_total_files (n : nat) (s : State) : State :=
  mkState (fs s) (output s) (processed_files s) (skipped_files s) n
          (category_stats s) (total_size s).
Definition set_category_stats (c : list (string * nat)) (s : State) : State :=
  mkState (fs s) (output s) (processed_files s) (skipped_files s) (total_files s)
          c (total_size s).
Definition set_total_size (z : Z) (s : State) : State :=
  mkState (fs s) (output s) (processed_files s) (skipped_files s) (total_files s)
          (category_stats s) z.

(** [safe_print(text)]. *)
Definition safe_print (text : string) : M unit := modify (emit (Print text)).
Definition safe_print_error (text : string) (e : exn) : M unit :=
  modify (emit (PrintError text e)).

(** [hashlib]'s [hexdigest()]: the digest as 32 lower-case hex digits. *)
Definition hex_digit (n : N) : ascii :=
  nth (N.to_nat n)
      ["0";"1";"2";"3";"4";"5";"6";"7";"8";"9";"a";"b";"c";"d";"e";"f"]%char "0"%char.

Fixpoint hex_fixed (k : nat) (n : N) : string :=
  match k with
  | O => ""
  | S k' => hex_fixed k' (n / 16)%N +:+ String (hex_digit (n mod 16)%N) ""
  end.

Definition hexdigest (n : N) : string := hex_fixed 32 n.

(** ** Size formatting *)

Definition size_names : list string := ["B"; "KB"; "MB"; "GB"; "TB"].

(** Rounding of [a / b] ([0 <= a], [0 < b]) to the nearest integer, ties
    to the even one, as the conversion to [float] and float formatting
    do. *)
Definition round_half_even (a b : Z) : Z :=
  let q := (a / b)%Z in
  let r := (a mod b)%Z in
  if (2 * r <? b)%Z then q
  else if (b <? 2 * r)%Z then (q + 1)%Z
  else if Z.even q then q else (q + 1)%Z.

(** [float(n)] for an [int]: the nearest binary64 value, ties to the
    even mantissa. An integer of at most 53 bits is its own value; a
    longer one keeps 53 bits. From [2^1024 - 2^970] on CPython raises
    [OverflowError] instead: the statements about [format_size] stop
    short of that size. *)
Definition to_float (n : Z) : Z :=
  let a := Z.abs n in
  let e := (Z.log2 a - 52)%Z in
  if (e <=? 0)%Z then n
  else (Z.sgn n * (round_half_even a (2 ^ e) * 2 ^ e))%Z.

(** The value of the local [size_bytes]: the [int] argument until the
    first division, a [float] afterwards. A float is given by its exact
    rational value. *)
Inductive num :=
| PyInt (n : Z)
| PyFloat (x : Q).

(** The exact value, which [>=] compares, and the conversion to [float]
    that [/] and the format [.2f] apply first. *)
Definition num_exact (v : num) : Q :=
  match v with
  | PyInt n => inject_Z n
  | PyFloat x => x
  end.

Definition num_float (v : num) : Q :=
  match v with
  | PyInt n => inject_Z (to_float n)
  | PyFloat x => x
  end.

(** The [while size_bytes >= 1024.0 and i < len(size_names) - 1] loop:
    [names] is [size_names[i:]]. A division of a float of at least 1024 by
    [1024.0] is exact in binary floating point. *)
Fixpoint scale (size_bytes : num) (names : list string) : num * string :=
  match names with
  | [] => (size_bytes, "")
  | [name] => (size_bytes, name)
  | name :: rest =>
      if Qle_bool 1024 (num_exact size_bytes)
      then scale (PyFloat (num_float size_bytes / 1024)) rest
      else (size_bytes, name)
  end.

Definition two_digits (n : Z) : string :=
  pretty (n / 10)%Z +:+ pretty (n mod 10)%Z.

(** [f"{x:.2f}"] for a float [x]: the decimal expansion of its exact
    value, correctly rounded. *)
Definition format_2f (x : Q) : string :=
  let h := round_half_even (100 * Z.abs (Qnum x)) (Zpos (Qden x)) in
  (if (Qnum x <? 0)%Z then "-" else "") +:+
  pretty (h / 100)%Z +:+ "." +:+ two_digits (h mod 100)%Z.

Definition format_size (size_bytes : Z) : string :=
  if (size_bytes =? 0)%Z then "0 B"
  else
    let '(x, name) := scale (PyInt size_bytes) size_names in
    format_2f (num_float x) +:+ " " +:+ name.

(** [text * n]. *)
Fixpoint str_repeat (text : string) (n : nat) : string :=
  match n with
  | O => ""
  | S n' => text +:+ str_repeat text n'
  end.

Definition nl : string := String (ascii_of_nat 10) "".

Section Engine.
Context (env : Env) (self : Engine).

(** [self.progress_callback(current, total, label)]: calling [None]
    raises [TypeError]. *)
Definition call_progress_callback (current total : nat) (label : string) : M unit :=
  if progress_callback self
  then modify (emit (Progress current total label))
  else raise TypeError.

(** [if self.progress_callback: self.progress_callback(...)]. *)
Definition report_progress (current total : nat) (label : string) : M unit :=
  if progress_callback self then call_progress_callback current total label else ret tt.

(** [open(file_path, "rb")] followed by reading the whole file. *)
Definition read_bytes (file_path : Path) : M string :=
  s <- get ;;
  match fs s !! file_path with
  | Some (File data) => if read_fault env file_path then raise OSError else ret data
  | _ => raise OSError
  end.

Definition calculate_file_hash (file_path : Path) : M string :=
  try_except
    (data <- read_bytes file_path ;;
     ret (hexdigest (md5 env data)))
    (λ e,
     safe_print_error ("计算文件哈希失败 " +:+ PathLib.str file_path +:+ ": ") e ;;;
     ret "").

(** [path.exists()]: [pathlib] answers [False] when [stat] fails because
    nothing is there, and lets every other error of [stat] through (a
    name that is too long, a directory that may not be searched). *)
Definition exists_ (p : Path) : M bool :=
  if exists_fault env p then raise OSError
  else s <- get ;; ret (bool_decide (is_Some (fs s !! p))).

Definition is_duplicate_file (source_file target_file : Path) : M bool :=
  ex <- exists_ target_file ;;
  if negb ex then ret false
  else
    source_hash <- calculate_file_hash source_file ;;
    target_hash <- calculate_file_hash target_file ;;
    ret (String.eqb source_hash target_hash && negb (String.eqb source_hash "")).

(** The [while target_path.exists()] loop of [generate_unique_filename],
    entered with the current [target_path] and [counter]: it ends with
    the first path that does not exist, or with the error of the first
    [exists()] that raises. [fuel] bounds the number of iterations; [None]
    when it runs out. *)
Fixpoint unique_loop (fuel : nat) (files : gmap Path node) (target_dir : Path)
    (stem suffix : string) (target_path : Path) (counter : nat) : option (result Path) :=
  if exists_fault env target_path then Some (Raise OSError)
  else if bool_decide (is_Some (files !! target_path)) then
    match fuel with
    | O => None
    | S fuel' =>
        let new_filename := stem +:+ "_" +:+ pretty counter +:+ suffix in
        unique_loop fuel' files target_dir stem suffix (target_dir /: new_filename) (S counter)
    end
  else Some (Ok target_path).

(** [generate_unique_filename] as a function of the file system. The loop
    is given one more iteration than the file system has entries. *)
Definition unique_filename (files : gmap Path node) (target_dir : Path) (filename : string)
    : option (result Path) :=
  let target_path := target_dir /: filename in
  let stem := PathLib.stem target_path in
  let suffix := PathLib.suffix target_path in
  unique_loop (S (size files)) files target_dir stem suffix target_path 1.

Definition generate_unique_filename (target_dir : Path) (filename : string) : M Path :=
  s <- get ;;
  match unique_filename (fs s) target_dir filename with
  | Some (Ok target_path) => ret target_path
  | Some (Raise e) => raise e
  | None => raise OSError (* never taken: see [unique_filename_total] *)
  end.

(** [category_dir.mkdir(parents=True, exist_ok=True)]: every missing
    ancestor and the directory itself are created, from the top down. It
    raises when an entry on the way is a regular file, and when the
    [os.mkdir] of a missing directory raises (permission denied, a
    read-only or full file system); the directories created before that
    stay. [walked] is the part of the path already walked; the result is
    the file system afterwards and whether the directory is there. *)
Fixpoint mkdir_p (walked rest : Path) (files : gmap Path node) : gmap Path node * bool :=
  match rest with
  | [] => (files, true)
  | c :: rest' =>
      let p := walked /: c in
      match files !! p with
      | Some (File _) => (files, false)
      | Some Dir => mkdir_p p rest' files
      | None =>
          if mkdir_fault env p then (files, false)
          else mkdir_p p rest' (<[p := Dir]> files)
      end
  end.

Definition mkdir (p : Path) : M unit :=
  s <- get ;;
  modify (set_fs (mkdir_p [] p (fs s)).1) ;;;
  if (mkdir_p [] p (fs s)).2 then ret tt else raise OSError.

Fixpoint create_dirs (categories : list string) : M unit :=
  match categories with
  | [] => ret tt
  | category :: rest =>
      let category_dir := target_dir self /: category in
      mkdir category_dir ;;;
      safe_print ("创建目录: " +:+ PathLib.str category_dir) ;;;
      create_dirs rest
  end.

Definition create_target_directories : M unit :=
  safe_print "正在创建目标目录结构..." ;;;
  create_dirs (map fst file_categories).

(** [item.is_file()]. *)
Definition is_file (files : gmap Path node) (p : Path) : bool :=
  match files !! p with
  | Some (File _) => true
  | _ => false
  end.

(** The [for i, item in enumerate(file_list)] loop of [scan_files];
    [all_files] is the list built so far. The loop sits in the [try] of
    [scan_files] and [all_files] is a local of that function: when
    [is_file()] raises, the loop is left and the list keeps what was
    appended before. The result is the list, and the exception that ended
    the loop if one did. *)
Fixpoint scan_loop (i total_items : nat) (file_list all_files : list Path)
    : M (list Path * option exn) :=
  match file_list with
  | [] => ret (all_files, None)
  | item :: rest =>
      report_progress (i + 1) total_items ("扫描: " +:+ PathLib.name item) ;;;
      if is_file_fault env item then ret (all_files, Some OSError)
      else
        s <- get ;;
        scan_loop (S i) total_items rest
          (if is_file (fs s) item then all_files ++ [item] else all_files)
  end.

Definition scan_files : M (list Path) :=
  safe_print ("正在扫描目录: " +:+ PathLib.str (source_dir self)) ;;;
  all_files <-
    match rglob env with
    | Some file_list =>
        r <- scan_loop 0 (length file_list) file_list [] ;;
        match r.2 with
        | Some e => safe_print_error "扫描文件时出错: " e ;;; ret r.1
        | None => ret r.1
        end
    | None => safe_print_error "扫描文件时出错: " OSError ;;; ret []
    end ;;
  safe_print ("找到 " +:+ pretty (length all_files) +:+ " 个文件") ;;;
  ret all_files.

(** [shutil.copy2(src, dst)] to a path [dst] that does not exist: the
    bytes of [src] are written to [dst] (metadata is not part of a node).
    When the source cannot be opened nothing is written; a copy that
    fails later leaves at [dst] what it had written. *)
Definition copy2 (src dst : Path) : M unit :=
  data <- read_bytes src ;;
  s <- get ;;
  if copy_fault env src dst then
    match copy_partial env src dst with
    | Some part => modify (set_fs (<[dst := File part]> (fs s))) ;;; raise OSError
    | None => raise OSError
    end
  else modify (set_fs (<[dst := File data]> (fs s))).

(** [file_path.stat().st_size]. The size of a directory entry is not
    modelled ([scan_files] keeps regular files only). *)
Definition st_size (file_path : Path) : M Z :=
  s <- get ;;
  match fs s !! file_path with
  | Some (File data) =>
      if stat_fault env file_path then raise OSError
      else ret (Z.of_nat (String.length data))
  | Some Dir => if stat_fault env file_path then raise OSError else ret 0%Z
  | None => raise OSError
  end.

(** [category_stats[category] += 1]. *)
Fixpoint incr_stat (category : string) (stats : list (string * nat)) : list (string * nat) :=
  match stats with
  | [] => []
  | (c, n) :: rest =>
      if String.eqb c category then (c, S n) :: rest else (c, n) :: incr_stat category rest
  end.

(** The value of [self.stop_requested] when [done] files have gone
    through the loop. *)
Definition stop_requested (done : nat) : bool :=
  match stop_at env with
  | Some k => (k <=? done)%nat
  | None => false
  end.

Inductive ctl := Next | Break.

(** The [try] block of the loop body for the [i]-th file (from 1). *)
Definition process_file (i : nat) (file_path : Path) : M ctl :=
  if stop_requested (i - 1) then
    safe_print "收到停止信号，正在停止整理..." ;;;
    ret Break
  else
    s <- get ;;
    report_progress i (total_files s) (PathLib.name file_path) ;;;
    let category := get_file_category file_path in
    let target_category_dir := target_dir self /: category in
    let target_file_path := target_category_dir /: PathLib.name file_path in
    dup <- is_duplicate_file file_path target_file_path ;;
    if dup then
      safe_print ("跳过重复文件: " +:+ PathLib.name file_path) ;;;
      modify (append_skipped file_path) ;;;
      ret Next
    else
      unique_target_path <- generate_unique_filename target_category_dir (PathLib.name file_path) ;;
      copy2 file_path unique_target_path ;;;
      file_size <- st_size file_path ;;
      s <- get ;;
      modify (set_total_size (total_size s + file_size)) ;;;
      modify (set_category_stats (incr_stat category (category_stats s))) ;;;
      modify (append_processed unique_target_path) ;;;
      safe_print ("已复制: " +:+ PathLib.name file_path +:+ " -> " +:+ category +:+ "/"
                  +:+ PathLib.name unique_target_path) ;;;
      ret Next.

(** The [except Exception as e] block. *)
Definition process_failed (file_path : Path) (e : exn) : M ctl :=
  safe_print_error ("处理文件失败 " +:+ PathLib.str file_path +:+ ": ") e ;;;
  modify (append_skipped file_path) ;;;
  ret Next.

(** [for i, file_path in enumerate(all_files, 1)], entered at index [i]. *)
Fixpoint process_loop (i : nat) (all_files : list Path) : M unit :=
  match all_files with
  | [] => ret tt
  | file_path :: rest =>
      c <- try_except (process_file i file_path) (process_failed file_path) ;;
      match c with
      | Break => ret tt
      | Next => process_loop (S i) rest
      end
  end.

(** The [for category, count in category_stats.items()] loop of
    [show_statistics]. *)
Fixpoint print_stats (stats : list (string * nat)) : M unit :=
  match stats with
  | [] => ret tt
  | (category, count) :: rest =>
      (if (0 <? count)%nat
       then safe_print ("  " +:+ category +:+ ": " +:+ pretty count +:+ " 个文件")
       else ret tt) ;;;
      print_stats rest
  end.

Definition show_statistics (category_stats : list (string * nat)) (total_size : Z) : M unit :=
  safe_print (nl +:+ str_repeat "=" 50) ;;;
  safe_print "文件整理完成！" ;;;
  safe_print (str_repeat "=" 50) ;;;
  safe_print (nl +:+ "分类统计:") ;;;
  print_stats category_stats ;;;
  safe_print (nl +:+ "总计:") ;;;
  s <- get ;;
  safe_print ("  成功处理: " +:+ pretty (length (processed_files s)) +:+ " 个文件") ;;;
  safe_print ("  跳过文件: " +:+ pretty (length (skipped_files s)) +:+ " 个文件") ;;;
  safe_print ("  总大小: " +:+ format_size total_size) ;;;
  safe_print (nl +:+ "目标目录: " +:+ PathLib.str (target_dir self)).

Definition STOPPED : string := "收到停止信号".
Definition COMPLETED : string := "整理完成".

Definition organize_files : M unit :=
  safe_print "开始整理文件..." ;;;
  safe_print ("源目录: " +:+ PathLib.str (source_dir self)) ;;;
  safe_print ("目标目录: " +:+ PathLib.str (target_dir self)) ;;;
  safe_print (str_repeat "-" 50) ;;;
  create_target_directories ;;;
  all_files <- scan_files ;;
  match all_files with
  | [] => safe_print "没有找到任何文件！"
  | _ =>
      modify (set_total_files (length all_files)) ;;;
      modify (set_category_stats (map (λ c, (c.1, 0%nat)) file_categories)) ;;;
      modify (set_total_size 0) ;;;
      process_loop 1 all_files ;;;
      s <- get ;;
      if stop_requested (total_files s) then
        call_progress_callback (total_files s) (total_files s) STOPPED ;;;
        safe_print (nl +:+ "整理已被用户停止") ;;;
        safe_print ("已处理文件: " +:+ pretty (length (processed_files s)) +:+ " 个") ;;;
        safe_print ("跳过文件: " +:+ pretty (length (skipped_files s)) +:+ " 个")
      else
        call_progress_callback (total_files s) (total_files s) COMPLETED ;;;
        show_statistics (category_stats s) (total_size s)
  end.

End Engine.

(** * Definitions used by the statements *)

(** States that differ in their output only. *)
Definition same_but_output (s s' : State) : Prop :=
  fs s' = fs s ∧ processed_files s' = processed_files s ∧
  skipped_files s' = skipped_files s ∧ total_files s' = total_files s ∧
  category_stats s' = category_stats s ∧ total_size s' = total_size s.

(** The digest [calculate_file_hash] returns, as a function of the file
    system: the empty string stands for a failure. *)
Definition file_hash (env : Env) (files : gmap Path node) (p : Path) : string :=
  match files !! p with
  | Some (File data) => if read_fault env p then "" else hexdigest (md5 env data)
  | _ => ""
  end.

(** The candidate tried by [generate_unique_filename] for counter [n]. *)
Definition candidate (target_dir : Path) (filename : string) (n : nat) : Path :=
  target_dir /: (PathLib.stem_of_name filename +:+ "_" +:+ pretty n
                 +:+ PathLib.suffix_of_name filename).

(** The paths [generate_unique_filename] tries, in order: the literal
    one, then the candidates for the counters 1, 2, ... *)
Definition slot (target_dir : Path) (filename : string) (n : nat) : Path :=
  match n with
  | O => target_dir /: filename
  | S _ => candidate target_dir filename n
  end.


(** The claim of C7 for one call: a path is returned, it is free, and it
    has the extension of the wanted name. *)
Definition unique_name_claim (env : Env) (target_dir : Path) (filename : string)
    (files : gmap Path node) : Prop :=
  ∃ p, generate_unique_filename env target_dir filename (init files) = (init files, Ok p) ∧
       files !! p = None ∧
       PathLib.suffix p = PathLib.suffix (target_dir /: filename).

(** The claim of C3 for a size of zero bytes. *)
Definition zero_size_claim : Prop := format_size 0 = "0.00 B".

(** The answer of [is_duplicate_file] as a function of the file system. *)
Definition is_dup (env : Env) (files : gmap Path node) (src dst : Path) : bool :=
  bool_decide (is_Some (files !! dst)) &&
  String.eqb (file_hash env files src) (file_hash env files dst) &&
  negb (String.eqb (file_hash env files src) "").

(** What a copy that raises leaves behind. *)
Definition partial_copy (env : Env) (src dst : Path) (s : State) : State :=
  match copy_partial env src dst with
  | Some part => set_fs (<[dst := File part]> (fs s)) s
  | None => s
  end.

(** What the loop body (with its [except] block) does to the state for
    one file, the output left aside. *)
Definition step_effect (env : Env) (self : Engine) (file_path : Path) (s : State) : State :=
  let category := get_file_category file_path in
  let target_category_dir := target_dir self /: category in
  let target_file_path := target_category_dir /: PathLib.name file_path in
  if exists_fault env target_file_path then append_skipped file_path s
  else if is_dup env (fs s) file_path target_file_path then append_skipped file_path s
  else
    match unique_filename env (fs s) target_category_dir (PathLib.name file_path),
          fs s !! file_path with
    | Some (Ok unique_target_path), Some (File data) =>
        if read_fault env file_path then append_skipped file_path s
        else if copy_fault env file_path unique_target_path
        then append_skipped file_path (partial_copy env file_path unique_target_path s)
        else
          let s1 := set_fs (<[unique_target_path := File data]> (fs s)) s in
          if stat_fault env file_path then append_skipped file_path s1
          else
            append_processed unique_target_path
              (set_category_stats (incr_stat category (category_stats s))
                 (set_total_size (total_size s + Z.of_nat (String.length data)) s1))
    | _, _ => append_skipped file_path s
    end.

(** What the loop does to the state for a list of files. *)
Definition loop_effect (env : Env) (self : Engine) (all_files : list Path) (s : State) : State :=
  foldl (λ s file_path, step_effect env self file_path s) s all_files.

(** How many of the files still ahead the loop handles when it is entered
    at index [i]. *)
Definition handled (env : Env) (i : nat) (all_files : list Path) : nat :=
  match stop_at env with
  | Some k => (k - (i - 1))%nat
  | None => length all_files
  end.

(** [files'] is [files] with some missing entries, of at most [n]
    components, created as directories. *)
Definition adds_dirs (n : nat) (files files' : gmap Path node) : Prop :=
  ∀ p, files' !! p = files !! p ∨
       (files !! p = None ∧ files' !! p = Some Dir ∧ (length p ≤ n)%nat).

(** Every directory on the way from [walked] down [rest] exists. *)
Fixpoint all_dirs (walked rest : Path) (files : gmap Path node) : Prop :=
  match rest with
  | [] => True
  | c :: rest' => files !! (walked /: c) = Some Dir ∧ all_dirs (walked /: c) rest' files
  end.

(** The fields that only the loop changes. *)
Definition same_fields (s s' : State) : Prop :=
  processed_files s' = processed_files s ∧ skipped_files s' = skipped_files s ∧
  total_files s' = total_files s ∧ category_stats s' = category_stats s ∧
  total_size s' = total_size s.

(** The line that opens the statistics report. *)
Definition REPORT_TITLE : string := "文件整理完成！".

(** An event of the phases before the loop: a progress call with a
    scanning label, or a printed line other than the title of the
    statistics report. *)
Definition scan_event (e : event) : Prop :=
  match e with
  | Progress _ _ label => ∃ name, label = "扫描: " +:+ name
  | Print text => text ≠ REPORT_TITLE
  | PrintError _ _ => True
  end.

(** [s'] comes from [s] by printing, scanning-phase callbacks and changes
    of the file system. *)
Definition quiet (s s' : State) : Prop :=
  same_fields s s' ∧ ∃ evs, output s' = output s ++ evs ∧ Forall scan_event evs.

(** The entries of a listing for which [is_file()] returned in the scan
    loop: those before the first one for which it raises. *)
Fixpoint reached (env : Env) (file_list : list Path) : list Path :=
  match file_list with
  | [] => []
  | item :: rest => if is_file_fault env item then [] else item :: reached env rest
  end.


(** The list [scan_files] returns, as a function of the file system: the
    regular files among the entries reached. *)
Definition scanned (env : Env) (files : gmap Path node) : list Path :=
  match rglob env with
  | Some file_list => List.filter (is_file files) (reached env file_list)
  | None => []
  end.

(** [organize_files] up to the test of [all_files]. *)
Definition preamble (env : Env) (self : Engine) : M (list Path) :=
  safe_print "开始整理文件..." ;;;
  safe_print ("源目录: " +:+ PathLib.str (source_dir self)) ;;;
  safe_print ("目标目录: " +:+ PathLib.str (target_dir self)) ;;;
  safe_print (str_repeat "-" 50) ;;;
  create_target_directories env self ;;;
  scan_files env self.

(** The state in which the loop is entered. *)
Definition loop_entry (all_files : list Path) (s : State) : State :=
  set_total_size 0
    (set_category_stats (map (λ c, (c.1, 0%nat)) file_categories)
       (set_total_files (length all_files) s)).

(** [organize_files] from the loop on. *)
Definition finish (env : Env) (self : Engine) (all_files : list Path) : M unit :=
  process_loop env self 1 all_files ;;;
  s <- get ;;
  if stop_requested env (total_files s) then
    call_progress_callback self (total_files s) (total_files s) STOPPED ;;;
    safe_print (nl +:+ "整理已被用户停止") ;;;
    safe_print ("已处理文件: " +:+ pretty (length (processed_files s)) +:+ " 个") ;;;
    safe_print ("跳过文件: " +:+ pretty (length (skipped_files s)) +:+ " 个")
  else
    call_progress_callback self (total_files s) (total_files s) COMPLETED ;;;
    show_statistics self (category_stats s) (total_size s).

(** A line given to [safe_print]. *)
Definition printed (e : event) : Prop :=
  match e with
  | Print _ => True
  | _ => False
  end.

(** [s'] comes from [s] by printing lines. *)
Definition prints (s s' : State) : Prop :=
  same_but_output s s' ∧ ∃ tail, output s' = output s ++ tail ∧ Forall printed tail.

(** The environment in which [stop_organizing] takes effect at the given
    moment ([None]: never). *)
Definition with_stop (k : option nat) (env : Env) : Env :=
  {| md5 := md5 env; read_fault := read_fault env; copy_fault := copy_fault env;
     copy_partial := copy_partial env; stat_fault := stat_fault env;
     exists_fault := exists_fault env; is_file_fault := is_file_fault env;
     mkdir_fault := mkdir_fault env; rglob := rglob env; stop_at := k |}.





(** The claim of C2 for one run. *)
Definition zero_files_claim (env : Env) (self : Engine) (files : gmap Path node) : Prop :=
  scanned env files = [] →
  let s' := (organize_files env self (init files)).1 in
  (∃ total label, Progress total total label ∈ output s' ∧
                  (label = COMPLETED ∨ label = STOPPED)) ∧
  Print REPORT_TITLE ∈ output s'.

(** The literal destination of a source file. *)
Definition dest (self : Engine) (file_path : Path) : Path :=
  target_dir self /: get_file_category file_path /: PathLib.name file_path.

(** A platform on which no read, copy, [stat], [exists], [is_file] or
    [mkdir] fails. *)
Definition no_faults (env : Env) : Prop :=
  (∀ p, read_fault env p = false) ∧ (∀ p q, copy_fault env p q = false) ∧
  (∀ p, stat_fault env p = false) ∧ (∀ p, exists_fault env p = false) ∧
  (∀ p, is_file_fault env p = false) ∧ (∀ p, mkdir_fault env p = false).


(** The claim of C5 for one run, in which the stop flag is set once [k]
    files went through the loop: the run returns, the processed list
    holds [k] paths, and the output ends with a callback call that
    carries the stop label, followed by printed lines only. *)
Definition cancellation_claim (env : Env) (self : Engine) (files : gmap Path node)
    (k : nat) : Prop :=
  let r := organize_files env self (init files) in
  r.2 = Ok tt ∧
  length (processed_files r.1) = k ∧
  ∃ out tail n, output r.1 = out ++ Progress n n STOPPED :: tail ∧ Forall printed tail.

(** ** Sample inputs *)

Module Samples.

(** A stand-in for MD5 on short contents: the bytes read as a number in
    base 256. *)
Fixpoint digest_from (acc : N) (data : string) : N :=
  match data with
  | EmptyString => acc
  | String c rest => digest_from (acc * 256 + N.of_nat (nat_of_ascii c)) rest
  end.

Definition sample_md5 (data : string) : N := digest_from 1 data.

(** No I/O fault, no stop request, and the given directory listing. *)
Definition calm (listing : list Path) : Env :=
  {| md5 := sample_md5; read_fault := λ _, false; copy_fault := λ _ _, false;
     copy_partial := λ _ _, None; stat_fault := λ _, false;
     exists_fault := λ _, false; is_file_fault := λ _, false;
     mkdir_fault := λ _, false; rglob := Some listing; stop_at := None |}.

Definition with_callback : Engine :=
  {| source_dir := ["src"]; target_dir := ["dst"]; progress_callback := true |}.

Definition without_callback : Engine :=
  {| source_dir := ["src"]; target_dir := ["dst"]; progress_callback := false |}.

(** Two files of different categories. *)
Definition two_files : gmap Path node :=
  <[ ["src"; "a"; "x.txt"] := File "hello" ]>
    (<[ ["src"; "y.JPG"] := File "ABCDE" ]> (<[ ["src"; "a"] := Dir ]> ∅)).
Definition two_files_listing : list Path :=
  [["src"; "a"]; ["src"; "a"; "x.txt"]; ["src"; "y.JPG"]].

(** Two files of the same name and different content. *)
Definition same_name : gmap Path node :=
  <[ ["src"; "p"; "a.txt"] := File "X" ]> (<[ ["src"; "q"; "a.txt"] := File "Y" ]> ∅).
Definition same_name_listing : list Path :=
  [["src"; "p"; "a.txt"]; ["src"; "q"; "a.txt"]].

(** One file, and a platform on which [stat] of it fails. *)
Definition one_file : gmap Path node := <[ ["src"; "a.txt"] := File "hello" ]> ∅.




(** A target that holds a file whose name ends with a dot. *)
Definition trailing_dot : gmap Path node := <[ ["dst"; "foo."] := File "x" ]> ∅.

(** A platform on which the existence check of a path raises (a name
    longer than the file system allows, a directory that may not be
    searched). *)
Definition no_stat : Env :=
  {| md5 := sample_md5; read_fault := λ _, false; copy_fault := λ _ _, false;
     copy_partial := λ _ _, None; stat_fault := λ _, false;
     exists_fault := λ _, true; is_file_fault := λ _, false;
     mkdir_fault := λ _, false; rglob := Some []; stop_at := None |}.


End Samples.

(** ** Definitions for the further properties *)

(** The calls of the progress callback in an output, in order. *)
Definition progress_of (out : list event) : list (nat * nat * string) :=
  omap (λ e, match e with
             | Progress current total label => Some (current, total, label)
             | _ => None
             end) out.

(** The size of the regular file at a path (0 when there is none). *)
Definition size_at (files : gmap Path node) (p : Path) : Z :=
  match files !! p with
  | Some (File data) => Z.of_nat (String.length data)
  | _ => 0%Z
  end.

(** The sizes of the files at the given paths, added up. *)
Definition total_bytes (files : gmap Path node) (paths : list Path) : Z :=
  foldr (λ p acc, (size_at files p + acc)%Z) 0%Z paths.

(** The state after the loop of a run whose preamble ended in [s0] with
    the files [l]: the fold over the handled files, or [s0] itself when
    no file was found. *)
Definition after_loop (env : Env) (self : Engine) (l : list Path) (s0 : State) : State :=
  match l with
  | [] => s0
  | _ => loop_effect env self (take (handled env 1 l) l) (loop_entry l s0)
  end.

(** What the loop keeps true of the counters. *)
Definition counters_agree (s : State) : Prop :=
  sum_list (category_stats s).*2 = length (processed_files s) ∧
  total_size s = total_bytes (fs s) (processed_files s) ∧
  (∀ p, p ∈ processed_files s → is_Some (fs s !! p)) ∧
  (category_stats s).*1 = file_categories.*1.

(** [p] is a copy made by the run: a path that did not exist in [files],
    that holds in [files'] the bytes of one of the source files [l], and
    that lies in the category directory of that file under the name of
    the file or under that name with a counter before the extension. *)
Definition placed_copy (self : Engine) (files files' : gmap Path node) (l : list Path)
    (p : Path) : Prop :=
  files !! p = None ∧
  ∃ f data name',
    f ∈ l ∧ files !! f = Some (File data) ∧ files' !! p = Some (File data) ∧
    p = target_dir self /: get_file_category f /: name' ∧
    (name' = PathLib.name f ∨
     ∃ n : nat, (0 < n)%nat ∧
       name' = PathLib.stem_of_name (PathLib.name f) +:+ "_" +:+ pretty n
               +:+ PathLib.suffix_of_name (PathLib.name f)).

(** What the loop keeps true of the processed list. *)
Definition copies_ok (self : Engine) (files : gmap Path node) (l : list Path) (s : State)
    : Prop :=
  files ⊆ fs s ∧ NoDup (processed_files s) ∧
  ∀ p, p ∈ processed_files s → placed_copy self files (fs s) l p.





(** ** The command-line entry point ([main] of [file_organizer.py]) *)

Module Cli.
Section Cli.

(** [str.strip()] and the constructor of [pathlib.Path] are taken as
    they are; the three arguments of [main] are the lines that the three
    calls of [input] return. The prompts of [input] are not lines given
    to [safe_print] and are left out of the output. *)
Context (strip : string → string) (path_of : string → Path).

(** [os.path.exists(p)]: the empty string names nothing, and every
    error of [stat] counts as absence. *)
Definition os_path_exists (env : Env) (p : string) : M bool :=
  s <- get ;;
  ret (match p with
       | EmptyString => false
       | _ => negb (exists_fault env (path_of p)) &&
              bool_decide (is_Some (fs s !! path_of p))
       end).

(** [os.makedirs(p, exist_ok=True)]: the empty string raises, and so
    does an entry that is there but whose [stat] fails ([os.mkdir] finds
    it, [os.path.isdir] does not). *)
Definition makedirs (env : Env) (p : string) : M unit :=
  match p with
  | EmptyString => raise OSError
  | _ =>
      s <- get ;;
      if exists_fault env (path_of p) && bool_decide (is_Some (fs s !! path_of p))
      then raise OSError
      else mkdir env (path_of p)
  end.

(** The instance [main] builds: no callback is given. *)
Definition organizer (source_dir target_dir : string) : Engine :=
  {| source_dir := path_of source_dir; target_dir := path_of target_dir;
     progress_callback := false |}.

Definition main (env : Env) (line1 line2 line3 : string) : M unit :=
  safe_print "微信文件整理器" ;;;
  safe_print (str_repeat "=" 30) ;;;
  let source_dir := strip line1 in
  let target_dir := strip line2 in
  source_exists <- os_path_exists env source_dir ;;
  if negb source_exists then
    safe_print ("错误: 源目录不存在 - " +:+ source_dir)
  else
    target_exists <- os_path_exists env target_dir ;;
    (if negb target_exists then
       safe_print ("目标目录不存在，将自动创建 - " +:+ target_dir) ;;;
       makedirs env target_dir
     else ret tt) ;;;
    safe_print (nl +:+ "即将整理文件从: " +:+ source_dir) ;;;
    safe_print ("到: " +:+ target_dir) ;;;
    let confirm := Str.lower (strip line3) in
    if negb (String.eqb confirm "y") then
      safe_print "操作已取消"
    else
      organize_files env (organizer source_dir target_dir).

End Cli.
End Cli.

(** ** The last lines of a run *)

(** The lines [show_statistics] prints for the categories: one for each
    category with a positive count, in the order of the table. *)
Definition stats_lines (stats : list (string * nat)) : list event :=
  (λ cs : string * nat, Print ("  " +:+ cs.1 +:+ ": " +:+ pretty cs.2 +:+ " 个文件"))
    <$> List.filter (λ cs : string * nat, (0 <? cs.2)%nat) stats.

(** The statistics report for given counters. *)
Definition report_lines (self : Engine) (stats : list (string * nat))
    (processed skipped : nat) (size : Z) : list event :=
  [Print (nl +:+ str_repeat "=" 50); Print REPORT_TITLE; Print (str_repeat "=" 50);
   Print (nl +:+ "分类统计:")] ++
  stats_lines stats ++
  [Print (nl +:+ "总计:");
   Print ("  成功处理: " +:+ pretty processed +:+ " 个文件");
   Print ("  跳过文件: " +:+ pretty skipped +:+ " 个文件");
   Print ("  总大小: " +:+ format_size size);
   Print (nl +:+ "目标目录: " +:+ PathLib.str (target_dir self))].

(** The statistics report of a run that ended in [s]. *)
Definition report (self : Engine) (s : State) : list event :=
  report_lines self (category_stats s) (length (processed_files s))
    (length (skipped_files s)) (total_size s).

(** The notice that closes a cancelled run that ended in [s]. *)
Definition stop_notice (s : State) : list event :=
  [Print (nl +:+ "整理已被用户停止");
   Print ("已处理文件: " +:+ pretty (length (processed_files s)) +:+ " 个");
   Print ("跳过文件: " +:+ pretty (length (skipped_files s)) +:+ " 个")].

(** ** The target tree *)


(** ** Further sample inputs *)

Module Cases.

(** Two files of the same name and the same bytes. *)
Definition same_bytes : gmap Path node :=
  <[ ["src"; "p"; "a.txt"] := File "X" ]> (<[ ["src"; "q"; "a.txt"] := File "X" ]> ∅).


(** A target that already holds a copy of the source file. *)
Definition already_copied : gmap Path node :=
  <[ ["dst"; "文档"; "a.txt"] := File "hello" ]> Samples.one_file.

(** The source and the target directory, and one file in the source. *)
Definition both_dirs : gmap Path node :=
  <[ ["src"] := Dir ]> (<[ ["dst"] := Dir ]> Samples.one_file).


Definition no_blanks (line : string) : string := line.
Definition one_component (p : string) : Path := [p].

End Cases.

(** * Properties *)

(** ** Classification *)

Lemma first_category_none table sfx :
  (∀ c exts, (c, exts) ∈ table → sfx ∉ exts) → first_category table sfx = OTHER.
Proof.
  induction table as [|[c exts] rest IH]; intros Hno; simpl; [done|].
  assert (str_in sfx exts = false) as ->.
  { apply bool_decide_eq_false. apply (Hno c). left. }
  rewrite andb_false_r. apply IH. intros c' exts' Hin. apply (Hno c'). by right.
Qed.

(** C8. Classification is total: a path whose lower-cased suffix is listed
    for a category of the table gets that category, and a path whose
    lower-cased suffix is listed nowhere (an empty suffix included) gets
    the fallback category. *)
Theorem get_file_category_spec (file_path : Path) :
  (∀ category extensions,
      (category, extensions) ∈ file_categories →
      Str.lower (PathLib.suffix file_path) ∈ extensions →
      get_file_category file_path = category) ∧
  ((∀ category extensions,
      (category, extensions) ∈ file_categories →
      Str.lower (PathLib.suffix file_path) ∉ extensions) →
   get_file_category file_path = OTHER).
Proof.
  unfold get_file_category. generalize (Str.lower (PathLib.suffix file_path)) as sfx.
  intros sfx. split.
  - intros category extensions Hc Hs. unfold file_categories in Hc.
    repeat (apply elem_of_cons in Hc as [Hc|Hc];
            [injection Hc as -> ->;
             repeat (apply elem_of_cons in Hs as [->|Hs]; [by vm_compute|]);
             by apply elem_of_nil in Hs|]).
    by apply elem_of_nil in Hc.
  - apply first_category_none.
Qed.

(** ** Hashing and duplicate detection *)

Lemma same_but_output_refl s : same_but_output s s.
Proof. by repeat split. Qed.

Lemma same_but_output_emit e s : same_but_output s (emit e s).
Proof. by repeat split. Qed.

Lemma same_but_output_trans s1 s2 s3 :
  same_but_output s1 s2 → same_but_output s2 s3 → same_but_output s1 s3.
Proof. unfold same_but_output. intros (?&?&?&?&?&?) (?&?&?&?&?&?). repeat split; congruence. Qed.

Lemma same_but_output_sym s1 s2 : same_but_output s1 s2 → same_but_output s2 s1.
Proof. unfold same_but_output. intros (?&?&?&?&?&?). by repeat split. Qed.

#[local] Hint Resolve same_but_output_refl same_but_output_emit : core.

Lemma hexdigest_nonempty n : hexdigest n ≠ "".
Proof. unfold hexdigest. simpl. by destruct (hex_fixed 31 (n / 16)). Qed.

Lemma calculate_file_hash_run env p s :
  ∃ s', calculate_file_hash env p s = (s', Ok (file_hash env (fs s) p)) ∧
        same_but_output s s'.
Proof.
  unfold calculate_file_hash, try_except, read_bytes, bind, get, file_hash.
  destruct (fs s !! p) as [[data|]|]; simpl; eauto.
  destruct (read_fault env p); simpl; eauto.
Qed.

Lemma is_duplicate_file_fault env src dst s :
  exists_fault env dst = true → is_duplicate_file env src dst s = (s, Raise OSError).
Proof. intros H. unfold is_duplicate_file, exists_, bind, raise. by rewrite H. Qed.

Lemma is_duplicate_file_run env src dst s :
  exists_fault env dst = false →
  ∃ s', is_duplicate_file env src dst s =
          (s', Ok (bool_decide (is_Some (fs s !! dst)) &&
                   String.eqb (file_hash env (fs s) src) (file_hash env (fs s) dst) &&
                   negb (String.eqb (file_hash env (fs s) src) ""))) ∧
        same_but_output s s'.
Proof.
  intros Hex. unfold is_duplicate_file, exists_. rewrite Hex. unfold bind, get, ret.
  destruct (bool_decide (is_Some (fs s !! dst))); simpl; eauto.
  destruct (calculate_file_hash_run env src s) as (s1 & -> & H1).
  destruct (calculate_file_hash_run env dst s1) as (s2 & -> & H2).
  exists s2. split; [|by eapply same_but_output_trans].
  destruct H1 as [-> _]. done.
Qed.

Lemma read_bytes_run env p s :
  read_bytes env p s =
  (s, match fs s !! p with
      | Some (File data) => if read_fault env p then Raise OSError else Ok data
      | _ => Raise OSError
      end).
Proof.
  unfold read_bytes, bind, get. destruct (fs s !! p) as [[data|]|]; try done.
  by destruct (read_fault env p).
Qed.

(** The digest is empty exactly when reading the file failed. *)
Lemma calculate_file_hash_empty env p s :
  (calculate_file_hash env p s).2 = Ok "" ↔ (read_bytes env p s).2 = Raise OSError.
Proof.
  destruct (calculate_file_hash_run env p s) as (s' & -> & _).
  rewrite read_bytes_run. unfold file_hash. cbn [snd].
  destruct (fs s !! p) as [[data|]|]; try done.
  destruct (read_fault env p); [done|].
  split; [|done]. intros H. exfalso. injection H as H.
  by apply hexdigest_nonempty in H.
Qed.

(** C6. A hashing failure on either side makes [is_duplicate_file] answer
    [False]: when reading the source or the existing destination fails,
    that is when [calculate_file_hash] returns the empty digest for one of
    them (or for both), the two files are not reported as duplicates. (The
    answer comes after the existence check of line 96: when that check
    itself raises, no hash is computed and its error is the result.) *)
Theorem hash_failure_not_duplicate env (source_file target_file : Path) (s : State) :
  (read_bytes env source_file s).2 = Raise OSError ∨
  (read_bytes env target_file s).2 = Raise OSError ∨
  (calculate_file_hash env source_file s).2 = Ok "" ∨
  (calculate_file_hash env target_file s).2 = Ok "" →
  (is_duplicate_file env source_file target_file s).2 =
  if exists_fault env target_file then Raise OSError else Ok false.
Proof.
  destruct (exists_fault env target_file) eqn:Hex.
  { intros _. by rewrite is_duplicate_file_fault. }
  rewrite <- !calculate_file_hash_empty.
  destruct (calculate_file_hash_run env source_file s) as (s1 & -> & _).
  destruct (calculate_file_hash_run env target_file s) as (s2 & -> & _).
  destruct (is_duplicate_file_run env source_file target_file s Hex) as (s3 & -> & _).
  cbn [snd]. intros [[= Hs]|[[= Ht]|[[= Hs]|[= Ht]]]]; f_equal.
  - rewrite Hs. cbn. by rewrite andb_false_r.
  - rewrite Ht. destruct (file_hash env (fs s) source_file =? "")%string; cbn;
      by rewrite ?andb_false_r.
  - rewrite Hs. cbn. by rewrite andb_false_r.
  - rewrite Ht. destruct (file_hash env (fs s) source_file =? "")%string; cbn;
      by rewrite ?andb_false_r.
Qed.

(** ** Unique names *)

Lemma str_length_app s t : String.length (s +:+ t) = String.length s + String.length t.
Proof. induction s as [|c s IH]; simpl; [done|by rewrite IH]. Qed.

Lemma str_app_inj_r s1 s2 t : s1 +:+ t = s2 +:+ t → s1 = s2.
Proof.
  revert s2. induction s1 as [|c s1 IH]; intros [|d s2] H; [done| | |].
  - apply (f_equal String.length) in H. rewrite !str_length_app in H. simpl in H. lia.
  - apply (f_equal String.length) in H. rewrite !str_length_app in H. simpl in H. lia.
  - injection H as -> H. f_equal. by apply IH.
Qed.

Lemma take_drop s i : Str.take i s +:+ Str.drop i s = s.
Proof.
  revert s. induction i as [|i IH]; intros [|c s]; try done.
  change (String c (Str.take i s +:+ Str.drop i s) = String c s). by rewrite IH.
Qed.

Lemma stem_suffix nm : PathLib.stem_of_name nm +:+ PathLib.suffix_of_name nm = nm.
Proof.
  unfold PathLib.stem_of_name, PathLib.suffix_of_name.
  destruct (PathLib.split_at nm); [apply take_drop|].
  induction nm as [|c nm IH]; [done|].
  change (String c (nm +:+ "") = String c nm). by rewrite IH.
Qed.

Lemma name_div dir nm : PathLib.name (dir /: nm) = nm.
Proof. unfold PathLib.name, PathLib.div. apply last_last. Qed.

Lemma div_inj dir a b : dir /: a = dir /: b → a = b.
Proof. unfold PathLib.div. intros H. apply app_inv_head in H. congruence. Qed.






Lemma candidate_inj target_dir filename : Inj (=) (=) (candidate target_dir filename).
Proof.
  intros n m H. apply div_inj in H.
  apply String.app_inj in H. apply (String.app_inj "_") in H.
  apply str_app_inj_r in H. by apply pretty_nat_inj in H.
Qed.

Section unique.
Context (env : Env) (files : gmap Path node) (target_dir : Path) (filename : string).

Let cand := candidate target_dir filename.
Let stem := PathLib.stem_of_name filename.
Let suffix := PathLib.suffix_of_name filename.

(** The loop passes a path that exists, and ends at one that is free or
    whose [exists()] raises. *)
Let passes (p : Path) : Prop := exists_fault env p = false ∧ is_Some (files !! p).
Let ends (p : Path) : Prop := exists_fault env p = true ∨ files !! p = None.

Lemma passes_or_ends p : passes p ∨ ends p.
Proof.
  unfold passes, ends. destruct (exists_fault env p); [right; by left|].
  destruct (files !! p); [by left|right; by right].
Qed.

Lemma unique_loop_end fuel p c :
  ends p →
  unique_loop env fuel files target_dir stem suffix p c
  = Some (if exists_fault env p then Raise OSError else Ok p).
Proof.
  unfold ends. intros [Hp|Hp].
  - rewrite Hp. destruct fuel; simpl; by rewrite Hp.
  - destruct (exists_fault env p) eqn:Hex; destruct fuel; simpl; rewrite Hex; try done;
      rewrite bool_decide_eq_false_2; try done; rewrite Hp; by intros [? ?].
Qed.

Lemma unique_loop_first_end (fuel : nat) : ∀ (p : Path) (c n : nat),
  (c ≤ n)%nat → (n < c + fuel)%nat →
  ends (cand n) →
  (∀ m : nat, (c ≤ m < n)%nat → passes (cand m)) →
  passes p →
  unique_loop env fuel files target_dir stem suffix p c
  = Some (if exists_fault env (cand n) then Raise OSError else Ok (cand n)).
Proof.
  induction fuel as [|fuel IH]; intros p c n Hcn Hn Hend Hpass [Hex Hp]; [lia|].
  simpl. rewrite Hex, bool_decide_eq_true_2; [|done].
  destruct (decide (c = n)) as [->|Hne].
  - by apply unique_loop_end.
  - apply IH; [lia|lia|done| |].
    + intros m Hm. apply Hpass. lia.
    + apply (Hpass c). lia.
Qed.

(** Among the first [size files + 1] candidates one is free. *)
Lemma some_candidate_free :
  ∃ n : nat, (1 ≤ n ≤ S (size files))%nat ∧ files !! cand n = None.
Proof.
  destruct (decide (Forall (λ n, is_Some (files !! cand n)) (seq 1 (S (size files)))))
    as [Hall|Hex].
  - exfalso.
    assert (NoDup (cand <$> seq 1 (S (size files)))) as Hnd.
    { apply NoDup_fmap_2; [apply candidate_inj|apply NoDup_seq]. }
    assert (list_to_set (cand <$> seq 1 (S (size files))) ⊆ dom files) as Hsub.
    { intros p Hp. apply elem_of_list_to_set, list_elem_of_fmap in Hp as (n & -> & Hn).
      apply elem_of_dom. by eapply (proj1 (Forall_forall _ _) Hall). }
    apply subseteq_size in Hsub.
    rewrite size_list_to_set in Hsub by done.
    rewrite length_fmap, length_seq, size_dom in Hsub. lia.
  - apply not_Forall_Exists in Hex; [|solve_decision].
    apply Exists_exists in Hex as (n & Hn & Hfree).
    apply elem_of_seq in Hn. exists n. split; [lia|].
    by apply eq_None_not_Some.
Qed.

(** ... hence a first one at which the loop ends. *)
Lemma least_candidate_end :
  ∃ n : nat, (1 ≤ n ≤ S (size files))%nat ∧ ends (cand n) ∧
       ∀ m : nat, (1 ≤ m < n)%nat → passes (cand m).
Proof.
  destruct some_candidate_free as (n0 & Hn0 & Hfree0).
  assert (ends (cand n0)) as Hend0 by (by right). clear Hfree0.
  revert Hn0 Hend0. induction n0 as [n0 IH] using lt_wf_ind. intros Hn0 Hend0.
  destruct (decide (Forall (λ m, exists_fault env (cand m) = false ∧ is_Some (files !! cand m))
                      (seq 1 (n0 - 1)))) as [Hall|Hex].
  - exists n0. repeat split; try lia; try done;
      apply (proj1 (Forall_forall _ _) Hall); apply elem_of_seq; lia.
  - apply not_Forall_Exists in Hex; [|solve_decision].
    apply Exists_exists in Hex as (m & Hm & Hnot).
    apply elem_of_seq in Hm. apply (IH m); [lia|lia|].
    destruct (passes_or_ends (cand m)) as [Hp|He]; [done|exact He].
Qed.

(** The paths that [generate_unique_filename] tries are the slots 0, 1,
    ...; it passes those that exist and ends at the first one that is
    free or whose [exists()] raises. *)
Lemma unique_filename_spec :
  ∃ n : nat,
    (∀ m : nat, (m < n)%nat →
       exists_fault env (slot target_dir filename m) = false ∧
       is_Some (files !! slot target_dir filename m)) ∧
    (exists_fault env (slot target_dir filename n) = true ∨
     files !! slot target_dir filename n = None) ∧
    unique_filename env files target_dir filename
    = Some (if exists_fault env (slot target_dir filename n) then Raise OSError
            else Ok (slot target_dir filename n)).
Proof.
  unfold unique_filename, PathLib.stem, PathLib.suffix. rewrite name_div.
  destruct (passes_or_ends (target_dir /: filename)) as [Hlit|Hlit].
  - destruct least_candidate_end as (n & Hn & Hend & Hpass).
    exists n. destruct n as [|n]; [lia|]. split; [|split; [exact Hend|]].
    + intros [|m] Hm; [exact Hlit|]. apply Hpass. lia.
    + apply unique_loop_first_end; try done; lia.
  - exists 0%nat. split; [intros m Hm; lia|]. split; [exact Hlit|].
    by apply unique_loop_end.
Qed.

(** The two outcomes, as the loop body of [organize_files] uses them. *)
Lemma unique_filename_cases :
  (∃ p, unique_filename env files target_dir filename = Some (Ok p) ∧
        files !! p = None ∧
        ((files !! (target_dir /: filename) = None ∧ p = target_dir /: filename) ∨
         (is_Some (files !! (target_dir /: filename)) ∧
          ∃ n : nat, (0 < n)%nat ∧ p = cand n ∧
                     ∀ m : nat, (0 < m < n)%nat → is_Some (files !! cand m)))) ∨
  unique_filename env files target_dir filename = Some (Raise OSError).
Proof.
  destruct unique_filename_spec as (n & Hpass & Hend & ->).
  destruct (exists_fault env (slot target_dir filename n)) eqn:Hex; [by right|left].
  destruct Hend as [|Hfree]; [done|].
  eexists. split; [done|]. split; [done|].
  destruct n as [|n]; [by left|right]. split; [apply (Hpass 0%nat); lia|].
  exists (S n). split; [lia|]. split; [done|].
  intros [|m] Hm; [lia|]. apply (Hpass (S m)). lia.
Qed.

End unique.

Lemma unique_filename_total env files target_dir filename :
  is_Some (unique_filename env files target_dir filename).
Proof. destruct (unique_filename_spec env files target_dir filename) as (n & _ & _ & ->). done. Qed.

Lemma unique_filename_free env files target_dir filename :
  exists_fault env (target_dir /: filename) = false →
  files !! (target_dir /: filename) = None →
  unique_filename env files target_dir filename = Some (Ok (target_dir /: filename)).
Proof.
  intros Hex Hfree. unfold unique_filename, PathLib.stem, PathLib.suffix. rewrite name_div.
  rewrite unique_loop_end by (by right). by rewrite Hex.
Qed.

(** Without faults of [exists()] the outcome is a free path. *)
Lemma unique_filename_ok env files target_dir filename :
  (∀ p, exists_fault env p = false) →
  ∃ p, unique_filename env files target_dir filename = Some (Ok p) ∧
       files !! p = None ∧
       ((files !! (target_dir /: filename) = None ∧ p = target_dir /: filename) ∨
        (is_Some (files !! (target_dir /: filename)) ∧
         ∃ n : nat, (0 < n)%nat ∧ p = candidate target_dir filename n ∧
                    ∀ m : nat, (0 < m < n)%nat →
                               is_Some (files !! candidate target_dir filename m))).
Proof.
  intros Hex.
  destruct (unique_filename_cases env files target_dir filename) as [H|H]; [exact H|].
  destruct (unique_filename_spec env files target_dir filename) as (n & _ & _ & Hrun).
  rewrite Hex in Hrun. congruence.
Qed.















(** C7, counterexample. The name [foo.] has no extension for [pathlib];
    when [foo.] is taken, the name returned is [foo._1], whose extension
    is [._1]. And where the existence check raises, no path is
    returned. *)
Lemma unique_name_counterexample :
  ¬ unique_name_claim (Samples.calm []) ["dst"] "foo." Samples.trailing_dot ∧
  ¬ unique_name_claim Samples.no_stat ["dst"] "a.txt" ∅.
Proof.
  split; intros (p & Hrun & _ & Hsfx); revert Hrun; vm_compute; [|done].
  intros [= <-]. revert Hsfx. by vm_compute.
Qed.


(** ** Size formatting *)

(** The rounding of [format_2f] is to a nearest integer: the printed
    hundredths are within half a hundredth of the value. *)
Lemma round_half_even_nearest (a b : Z) :
  (0 ≤ a)%Z → (0 < b)%Z → (2 * Z.abs (a - b * round_half_even a b) ≤ b)%Z.
Proof.
  intros Ha Hb. unfold round_half_even.
  pose proof (Z.div_mod a b ltac:(lia)) as Hdm.
  pose proof (Z.mod_pos_bound a b Hb) as Hr.
  destruct (Z.ltb_spec (2 * (a mod b)) b); [lia|].
  destruct (Z.ltb_spec b (2 * (a mod b))); [lia|].
  destruct (Z.even (a / b)); lia.
Qed.

(** C3, counterexample. A size of zero is answered by the special case
    ["0 B"], not by the two-decimal form. *)
Lemma format_size_zero_counterexample : ¬ zero_size_claim.
Proof. unfold zero_size_claim. vm_compute. discriminate. Qed.

(** [float(n)] is [n] up to 53 bits, and beyond that the multiple of
    [2^e] nearest to [n], where [e] is the number of bits dropped. *)
Lemma to_float_small (n : Z) : (Z.abs n < 2 ^ 53)%Z → to_float n = n.
Proof.
  intros Hn. unfold to_float.
  destruct (Z.leb_spec (Z.log2 (Z.abs n) - 52) 0%Z) as [|He]; [done|].
  exfalso. destruct (Z.eq_dec (Z.abs n) 0%Z) as [H0|H0].
  - rewrite H0 in He. cbn in He. lia.
  - assert (Z.log2 (Z.abs n) < 53)%Z; [|lia].
    apply Z.log2_lt_pow2; lia.
Qed.

Lemma round_half_even_floor (a b : Z) :
  (a / b ≤ round_half_even a b ≤ a / b + 1)%Z.
Proof. unfold round_half_even. repeat case_match; lia. Qed.

Lemma to_float_large (n : Z) : (2 ^ 53 ≤ n)%Z → (2 ^ 53 ≤ to_float n)%Z.
Proof.
  intros Hn. unfold to_float. rewrite Z.abs_eq by lia.
  assert (53 ≤ Z.log2 n)%Z as Hlog by (apply Z.log2_le_pow2; lia).
  destruct (Z.leb_spec (Z.log2 n - 52) 0%Z) as [|He]; [lia|].
  rewrite Z.sgn_pos by lia. rewrite Z.mul_1_l.
  set (e := (Z.log2 n - 52)%Z) in *.
  assert (0 < 2 ^ e)%Z as Hpos by (apply Z.pow_pos_nonneg; lia).
  assert (2 ^ 52 ≤ n / 2 ^ e)%Z as Hq.
  { apply Z.div_le_lower_bound; [done|].
    rewrite Z.mul_comm, <- Z.pow_add_r by lia.
    replace (52 + e)%Z with (Z.log2 n) by lia.
    apply Z.log2_spec. lia. }
  pose proof (round_half_even_floor n (2 ^ e)) as [Hfl _].
  assert (2 ≤ 2 ^ e)%Z as H2.
  { change 2%Z with (2 ^ 1)%Z at 1. apply Z.pow_le_mono_r; lia. }
  change (2 ^ 53)%Z with (2 ^ 52 * 2)%Z. nia.
Qed.

Lemma to_float_nearest (n : Z) :
  (0 < n)%Z → (2 * Z.abs (to_float n - n) ≤ 2 ^ (Z.log2 n - 52))%Z.
Proof.
  intros Hn. unfold to_float. rewrite (Z.abs_eq n) by lia.
  destruct (Z.leb_spec (Z.log2 n - 52) 0%Z) as [He|He].
  - rewrite Z.sub_diag. cbn [Z.abs Z.mul]. apply Z.pow_nonneg. lia.
  - rewrite Z.sgn_pos by lia. rewrite Z.mul_1_l.
    assert (0 < 2 ^ (Z.log2 n - 52))%Z as Hpos by (apply Z.pow_pos_nonneg; lia).
    pose proof (round_half_even_nearest n _ ltac:(lia) Hpos) as Hnear.
    rewrite <- Z.abs_opp. rewrite Z.opp_sub_distr, Z.add_comm, Z.add_opp_r.
    by rewrite (Z.mul_comm (round_half_even _ _)).
Qed.

(** C3, as amended. Zero gives ["0 B"]; 1536 gives ["1.50 KB"] and [2^30]
    gives ["1.00 GB"]. A positive size [n] (below the sizes that have no
    float) is divided by 1024 [i] times, where each division found a
    magnitude of at least 1024 and the loop ended below 1024 or at the
    last unit ([i = 4]); the result is the two-decimal form of
    [float(n) / 1024^i] followed by the [i]-th unit. Here [float(n)] is
    [n] itself up to [2^53] and the nearest float beyond, which is why
    9007215747415409 bytes are shown as 8192.01 TB and not as 8192.02. *)
Theorem format_size_spec :
  format_size 0 = "0 B" ∧
  format_size 1536 = "1.50 KB" ∧
  format_size 1073741824 = "1.00 GB" ∧
  format_size 9007215747415409 = "8192.01 TB" ∧
  ∀ n : Z, (0 < n < 2 ^ 1024 - 2 ^ 970)%Z →
    ∃ (i : nat) (name : string),
      size_names !! i = Some name ∧
      (∀ j : nat, (j < i)%nat → (1024 ^ Z.of_nat (S j) ≤ n)%Z) ∧
      (i = 4%nat ∨ (n < 1024 ^ Z.of_nat (S i))%Z) ∧
      format_size n
      = format_2f (to_float n # Z.to_pos (1024 ^ Z.of_nat i)) +:+ " " +:+ name ∧
      ((n < 2 ^ 53)%Z → to_float n = n) ∧
      (2 * Z.abs (to_float n - n) ≤ 2 ^ (Z.log2 n - 52))%Z.
Proof.
  split; [by vm_compute|]. split; [by vm_compute|]. split; [by vm_compute|].
  split; [by vm_compute|].
  intros n [Hn _].
  assert (((n < 2 ^ 53)%Z → to_float n = n) ∧
          (2 * Z.abs (to_float n - n) ≤ 2 ^ (Z.log2 n - 52))%Z) as Hfloat.
  { split; [|by apply to_float_nearest]. intros Hlt. apply to_float_small. lia. }
  assert ((n < 2 ^ 53 ∧ to_float n = n) ∨ (2 ^ 53 ≤ n ∧ 2 ^ 53 ≤ to_float n))%Z as Hcase.
  { destruct (Z.lt_ge_cases n (2 ^ 53)) as [Hlt|Hge].
    - left. split; [done|]. apply to_float_small. lia.
    - right. split; [done|]. by apply to_float_large. }
  unfold format_size.
  destruct (Z.eqb_spec n 0%Z) as [|_]; [lia|].
  unfold size_names, scale, num_exact, num_float, Qle_bool, Qdiv, Qmult, Qinv, inject_Z.
  cbn [Qnum Qden].
  rewrite !Z.mul_1_r. cbn [Pos.mul Z.mul].
  change (2 ^ 53)%Z with 9007199254740992%Z in Hcase.
  remember (to_float n) as x eqn:Hx.
  repeat match goal with
  | |- context [Z.leb ?a ?b] => destruct (Z.leb_spec a b)
  end; try (exfalso; lia); rewrite <- ?Hx.
  - exists 4%nat, "TB". split; [done|]. split; [|split; [by left|by split]].
    intros j Hj. do 4 (destruct j as [|j]; [simpl; lia|]). lia.
  - exists 3%nat, "GB". split; [done|]. split; [|split; [right; simpl; lia|by split]].
    intros j Hj. do 3 (destruct j as [|j]; [simpl; lia|]). lia.
  - exists 2%nat, "MB". split; [done|]. split; [|split; [right; simpl; lia|by split]].
    intros j Hj. do 2 (destruct j as [|j]; [simpl; lia|]). lia.
  - exists 1%nat, "KB". split; [done|]. split; [|split; [right; simpl; lia|by split]].
    intros j Hj. do 1 (destruct j as [|j]; [simpl; lia|]). lia.
  - exists 0%nat, "B". split; [done|]. split; [|split; [right; simpl; lia|by split]].
    intros j Hj. lia.
Qed.

(** ** One file of the loop as a function on states *)

Lemma bind_ok {A B} (m : M A) (k : A → M B) s s' a :
  m s = (s', Ok a) → bind m k s = k a s'.
Proof. unfold bind. by intros ->. Qed.

Lemma bind_raise {A B} (m : M A) (k : A → M B) s s' e :
  m s = (s', Raise e) → bind m k s = (s', Raise e).
Proof. unfold bind. by intros ->. Qed.

Lemma bind_assoc {A B C} (m : M A) (k : A → M B) (h : B → M C) s :
  bind (bind m k) h s = bind m (λ a, bind (k a) h) s.
Proof. unfold bind. by destruct (m s) as [s' [a|e]]. Qed.

Lemma report_progress_run self current total label s :
  ∃ s', report_progress self current total label s = (s', Ok tt) ∧ same_but_output s s'.
Proof.
  unfold report_progress, call_progress_callback.
  destruct (progress_callback self); cbn; eauto.
Qed.

Lemma same_but_output_eq s s' :
  same_but_output s s' →
  s' = mkState (fs s) (output s') (processed_files s) (skipped_files s) (total_files s)
               (category_stats s) (total_size s).
Proof. destruct s'. unfold same_but_output. simpl. intros (->&->&->&->&->&->). done. Qed.

Lemma process_one_run env self i file_path s :
  stop_requested env (i - 1) = false →
  ∃ s', try_except (process_file env self i file_path) (process_failed file_path) s
          = (s', Ok Next) ∧
        same_but_output (step_effect env self file_path s) s'.
Proof.
  intros Hstop. unfold try_except, process_file, step_effect. rewrite Hstop.
  rewrite (bind_ok get _ s s s) by done.
  destruct (report_progress_run self i (total_files s) (PathLib.name file_path) s)
    as (s1 & Hrun1 & Hs1).
  rewrite (bind_ok _ _ _ _ _ Hrun1).
  set (tdir := target_dir self /: get_file_category file_path).
  assert (fs s1 = fs s) as Hfs1 by apply Hs1.
  destruct (exists_fault env (tdir /: PathLib.name file_path)) eqn:Hex.
  { rewrite (bind_raise _ _ _ _ _ (is_duplicate_file_fault env _ _ s1 Hex)).
    cbn. eexists. split; [done|].
    rewrite (same_but_output_eq _ _ Hs1). by repeat split. }
  destruct (is_duplicate_file_run env file_path (tdir /: PathLib.name file_path) s1 Hex)
    as (s2 & Hrun2 & Hs2).
  rewrite (bind_ok _ _ _ _ _ Hrun2).
  pose proof (same_but_output_trans _ _ _ Hs1 Hs2) as Hs12.
  assert (fs s2 = fs s) as Hfs2 by apply Hs12.
  rewrite Hfs1. fold (is_dup env (fs s) file_path (tdir /: PathLib.name file_path)).
  destruct (is_dup env (fs s) file_path (tdir /: PathLib.name file_path)).
  { cbn. eexists. split; [done|].
    rewrite (same_but_output_eq _ _ Hs12). by repeat split. }
  destruct (unique_filename_cases env (fs s) tdir (PathLib.name file_path))
    as [(p & Hp & Hfree & _)|Hp].
  2:{ assert (generate_unique_filename env tdir (PathLib.name file_path) s2
              = (s2, Raise OSError)) as Hrun3.
      { unfold generate_unique_filename, bind, get, raise. by rewrite Hfs2, Hp. }
      rewrite (bind_raise _ _ _ _ _ Hrun3). rewrite Hp.
      cbn. eexists. split; [done|].
      rewrite (same_but_output_eq _ _ Hs12). by repeat split. }
  assert (generate_unique_filename env tdir (PathLib.name file_path) s2 = (s2, Ok p)) as Hrun3.
  { unfold generate_unique_filename, bind, get, ret. by rewrite Hfs2, Hp. }
  rewrite (bind_ok _ _ _ _ _ Hrun3). rewrite Hp.
  unfold copy2, read_bytes, st_size, process_failed, safe_print, safe_print_error,
    partial_copy, bind, get, ret, raise, modify.
  rewrite Hfs2.
  destruct (fs s !! file_path) as [[data|]|] eqn:Hsrc; cbn;
    try (eexists; split; [done|];
         rewrite (same_but_output_eq _ _ Hs12); by repeat split).
  destruct (read_fault env file_path); cbn;
    try (eexists; split; [done|];
         rewrite (same_but_output_eq _ _ Hs12); by repeat split).
  destruct (copy_fault env file_path p); cbn.
  { destruct (copy_partial env file_path p); cbn;
      (eexists; split; [done|];
       rewrite (same_but_output_eq _ _ Hs12); rewrite ?Hfs2; by repeat split). }
  rewrite Hfs2. rewrite lookup_insert_ne by congruence. rewrite Hsrc.
  destruct (stat_fault env file_path); cbn;
    (eexists; split; [done|];
     rewrite (same_but_output_eq _ _ Hs12); by repeat split).
Qed.

Lemma step_effect_same env self file_path s1 s2 :
  same_but_output s1 s2 →
  same_but_output (step_effect env self file_path s1) (step_effect env self file_path s2).
Proof.
  intros H. rewrite (same_but_output_eq _ _ H). destruct s1.
  unfold step_effect, partial_copy. cbn.
  repeat case_match; by repeat split.
Qed.

(** ** The loop as a fold *)

Lemma loop_effect_same env self all_files : ∀ s1 s2,
  same_but_output s1 s2 →
  same_but_output (loop_effect env self all_files s1) (loop_effect env self all_files s2).
Proof.
  induction all_files as [|f rest IH]; intros s1 s2 H; [done|].
  apply IH. by apply step_effect_same.
Qed.

(** The loop never raises, and its effect is the fold of [step_effect]
    over the files that come before the stop request. *)
Lemma process_loop_run env self : ∀ (all_files : list Path) (i : nat) (s : State),
  (1 ≤ i)%nat →
  ∃ s', process_loop env self i all_files s = (s', Ok tt) ∧
        same_but_output
          (loop_effect env self (take (handled env i all_files) all_files) s) s'.
Proof.
  induction all_files as [|f rest IH]; intros i s Hi.
  { exists s. split; [done|]. rewrite take_nil. apply same_but_output_refl. }
  cbn [process_loop].
  destruct (stop_requested env (i - 1)) eqn:Hstop.
  - unfold bind, try_except, process_file. rewrite Hstop. cbn.
    eexists. split; [done|].
    unfold handled. unfold stop_requested in Hstop.
    destruct (stop_at env) as [k|]; [|done].
    apply Nat.leb_le in Hstop. replace (k - (i - 1))%nat with 0%nat by lia.
    cbn. by repeat split.
  - destruct (process_one_run env self i f s Hstop) as (s1 & Hrun & Hs1).
    rewrite (bind_ok _ _ _ _ _ Hrun).
    destruct (IH (S i) s1) as (s' & Hloop & Hs'); [lia|].
    exists s'. split; [done|].
    assert (handled env i (f :: rest) = S (handled env (S i) rest)) as ->.
    { unfold handled. unfold stop_requested in Hstop.
      destruct (stop_at env) as [k|]; [|done].
      apply Nat.leb_gt in Hstop. lia. }
    cbn [take loop_effect foldl].
    eapply same_but_output_trans; [|exact Hs'].
    by apply loop_effect_same.
Qed.

(** ** Directory creation and scanning *)

Lemma adds_dirs_refl n files : adds_dirs n files files.
Proof. intros p. by left. Qed.

Lemma adds_dirs_trans n f1 f2 f3 : adds_dirs n f1 f2 → adds_dirs n f2 f3 → adds_dirs n f1 f3.
Proof.
  intros H12 H23 p. destruct (H12 p) as [E12|(E1&E2&L)], (H23 p) as [E23|(E2'&E3&L')].
  - left. congruence.
  - right. repeat split; congruence.
  - right. repeat split; congruence.
  - congruence.
Qed.

Lemma adds_dirs_subseteq n files files' : adds_dirs n files files' → files ⊆ files'.
Proof.
  intros H. apply map_subseteq_spec. intros p x Hp.
  destruct (H p) as [E|(E&_)]; congruence.
Qed.

Lemma adds_dirs_is_file n files files' p :
  adds_dirs n files files' → is_file files' p = is_file files p.
Proof. intros H. unfold is_file. destruct (H p) as [->|(->& -> &_)]; done. Qed.


Lemma adds_dirs_insert n files p :
  files !! p = None → (length p ≤ n)%nat → adds_dirs n files (<[p := Dir]> files).
Proof.
  intros Hp Hn q. destruct (decide (p = q)) as [<-|Hne].
  - right. by rewrite lookup_insert_eq.
  - left. by rewrite lookup_insert_ne.
Qed.

Lemma all_dirs_mono rest : ∀ walked files files',
  files ⊆ files' → all_dirs walked rest files → all_dirs walked rest files'.
Proof.
  induction rest as [|c rest IH]; intros walked files files' Hsub; [done|].
  intros [Hc Hrest]. split; [|by eapply IH].
  by eapply lookup_weaken.
Qed.

Lemma mkdir_p_adds env (rest : Path) : ∀ (walked : Path) (files : gmap Path node),
  adds_dirs (length walked + length rest) files (mkdir_p env walked rest files).1 ∧
  ((mkdir_p env walked rest files).2 = true →
   all_dirs walked rest (mkdir_p env walked rest files).1).
Proof.
  induction rest as [|c rest IH]; intros walked files; cbn [mkdir_p].
  { split; [apply adds_dirs_refl|done]. }
  assert (length (walked /: c) + length rest = length walked + length (c :: rest))%nat as Hlen.
  { unfold PathLib.div. rewrite length_app. cbn. lia. }
  destruct (files !! (walked /: c)) as [[data|]|] eqn:Hc.
  - split; [apply adds_dirs_refl|done].
  - destruct (IH (walked /: c) files) as [Hadd Hall]. rewrite Hlen in Hadd.
    split; [done|]. intros Hok. split; [|by apply Hall].
    eapply lookup_weaken; [exact Hc|by eapply adds_dirs_subseteq].
  - destruct (mkdir_fault env (walked /: c)); [split; [apply adds_dirs_refl|done]|].
    destruct (IH (walked /: c) (<[walked /: c := Dir]> files)) as [Hadd Hall].
    rewrite Hlen in Hadd.
    assert (adds_dirs (length walked + length (c :: rest)) files (<[walked /: c := Dir]> files))
      as Hins by (apply adds_dirs_insert; [done|lia]).
    split; [by eapply adds_dirs_trans|]. intros Hok. split; [|by apply Hall].
    eapply lookup_weaken; [|by eapply adds_dirs_subseteq]. by rewrite lookup_insert_eq.
Qed.

Lemma mkdir_p_again env (rest : Path) : ∀ (walked : Path) (files : gmap Path node),
  all_dirs walked rest files → mkdir_p env walked rest files = (files, true).
Proof.
  induction rest as [|c rest IH]; intros walked files H; [done|].
  destruct H as [Hc Hrest]. cbn. rewrite Hc. by apply IH.
Qed.

Lemma mkdir_unfold env (p : Path) (s : State) :
  mkdir env p s =
  (set_fs (mkdir_p env [] p (fs s)).1 s,
   if (mkdir_p env [] p (fs s)).2 then Ok tt else Raise OSError).
Proof. unfold mkdir, bind, get, modify. cbn. by destruct (mkdir_p env [] p (fs s)).2. Qed.

(** A text that starts differently from the report title. *)
Ltac text_ne :=
  let H := fresh in
  intros H; cbv [String.append REPORT_TITLE str_repeat] in H; discriminate H.

Lemma quiet_refl s : quiet s s.
Proof. split; [by repeat split|]. exists []. by rewrite app_nil_r. Qed.

Lemma quiet_trans s1 s2 s3 : quiet s1 s2 → quiet s2 s3 → quiet s1 s3.
Proof.
  intros [(?&?&?&?&?) (e1&E1&F1)] [(?&?&?&?&?) (e2&E2&F2)].
  split; [repeat split; congruence|].
  exists (e1 ++ e2). split; [by rewrite E2, E1, app_assoc|by apply Forall_app].
Qed.

Lemma quiet_emit e s : scan_event e → quiet s (emit e s).
Proof. intros He. split; [by repeat split|]. exists [e]. split; [done|by constructor]. Qed.

Lemma quiet_print text s : text ≠ REPORT_TITLE → quiet s (emit (Print text) s).
Proof. intros H. by apply quiet_emit. Qed.

Lemma quiet_set_fs files s : quiet s (set_fs files s).
Proof. split; [by repeat split|]. exists []. by rewrite app_nil_r. Qed.

Lemma safe_print_run text s : safe_print text s = (emit (Print text) s, Ok tt).
Proof. done. Qed.

Lemma create_dirs_run env self categories : ∀ s,
  ∃ s' r, create_dirs env self categories s = (s', r) ∧
          adds_dirs (S (length (target_dir self))) (fs s) (fs s') ∧ quiet s s' ∧
          (r = Ok tt ∨ r = Raise OSError).
Proof.
  induction categories as [|c rest IH]; intros s; cbn [create_dirs].
  { exists s, (Ok tt). split; [done|]. split; [apply adds_dirs_refl|]. split; [apply quiet_refl|by left]. }
  unfold bind at 1. rewrite mkdir_unfold.
  destruct (mkdir_p_adds env (target_dir self /: c) [] (fs s)) as [Hadd _].
  replace (length [] + length (target_dir self /: c))%nat
    with (S (length (target_dir self))) in Hadd
    by (unfold PathLib.div; rewrite length_app; cbn; lia).
  destruct (mkdir_p env [] (target_dir self /: c) (fs s)) as [files [|]]; cbn [fst snd] in *.
  - rewrite (bind_ok _ _ _ _ _ (safe_print_run _ _)).
    destruct (IH (emit (Print ("创建目录: " +:+ PathLib.str (target_dir self /: c)))
                    (set_fs files s))) as (s' & r & -> & Hadd' & Hq & Hr).
    exists s', r. split; [done|]. split; [|split; [|done]].
    + eapply adds_dirs_trans; [exact Hadd|exact Hadd'].
    + eapply quiet_trans; [|exact Hq].
      eapply quiet_trans; [apply quiet_set_fs|apply quiet_print; text_ne].
  - exists (set_fs files s), (Raise OSError). split; [done|].
    split; [done|]. split; [apply quiet_set_fs|by right].
Qed.

(** Creating the directories a second time, on a file system that still
    has them, changes nothing. *)
Lemma create_dirs_again env env' self categories : ∀ s s0 s1,
  create_dirs env self categories s = (s0, Ok tt) →
  fs s0 ⊆ fs s1 →
  ∃ s1', create_dirs env' self categories s1 = (s1', Ok tt) ∧ fs s1' = fs s1 ∧ quiet s1 s1'.
Proof.
  induction categories as [|c rest IH]; intros s s0 s1 Hrun Hsub; cbn [create_dirs] in *.
  { exists s1. split; [done|]. split; [done|apply quiet_refl]. }
  revert Hrun. unfold bind at 1 3. rewrite !mkdir_unfold.
  destruct (mkdir_p_adds env (target_dir self /: c) [] (fs s)) as [_ Hall].
  destruct (mkdir_p env [] (target_dir self /: c) (fs s)) as [files [|]]; cbn [fst snd] in *;
    [|done].
  rewrite (bind_ok _ _ _ _ _ (safe_print_run _ _)).
  intros Hrun.
  destruct (create_dirs_run env self rest
              (emit (Print ("创建目录: " +:+ PathLib.str (target_dir self /: c)))
                 (set_fs files s))) as (sx & rx & Hx & Haddx & _).
  rewrite Hx in Hrun. injection Hrun as -> ->.
  assert (all_dirs [] (target_dir self /: c) (fs s1)) as Hall1.
  { eapply all_dirs_mono; [|exact (Hall eq_refl)].
    etrans; [|exact Hsub]. by eapply adds_dirs_subseteq. }
  rewrite (mkdir_p_again _ _ _ _ Hall1). cbn [fst snd].
  rewrite (bind_ok _ _ _ _ _ (safe_print_run _ _)).
  destruct (IH _ s0 (emit (Print ("创建目录: " +:+ PathLib.str (target_dir self /: c)))
                       (set_fs (fs s1) s1)) Hx)
    as (s1' & Hrun1 & Hfs1 & Hq1); [done|].
  exists s1'. split; [done|]. split; [done|].
  eapply quiet_trans; [|exact Hq1].
  eapply quiet_trans; [apply quiet_set_fs|apply quiet_print; text_ne].
Qed.

Lemma report_progress_quiet self (i total_items : nat) (item : Path) (s : State) :
  ∃ s1, report_progress self (i + 1) total_items ("扫描: " +:+ PathLib.name item) s
        = (s1, Ok tt) ∧ fs s1 = fs s ∧ quiet s s1.
Proof.
  unfold report_progress, call_progress_callback. destruct (progress_callback self); cbn.
  - eexists. split; [done|]. split; [done|]. apply quiet_emit. cbn. eauto.
  - eexists. split; [done|]. split; [done|]. apply quiet_refl.
Qed.

Lemma scan_loop_run env self total_items :
  ∀ (file_list all_files : list Path) (i : nat) (s : State),
  ∃ s' e, scan_loop env self i total_items file_list all_files s
          = (s', Ok (all_files ++ List.filter (is_file (fs s)) (reached env file_list), e)) ∧
        fs s' = fs s ∧ quiet s s'.
Proof.
  induction file_list as [|item rest IH]; intros all_files i s;
    cbn [scan_loop reached List.filter].
  { exists s, None. rewrite app_nil_r. split; [done|]. split; [done|apply quiet_refl]. }
  destruct (report_progress_quiet self i total_items item s) as (s1 & Hrun & Hfs & Hq).
  rewrite (bind_ok _ _ _ _ _ Hrun).
  destruct (is_file_fault env item).
  { exists s1, (Some OSError). cbn [List.filter]. rewrite app_nil_r. by split. }
  rewrite (bind_ok get _ s1 s1 s1) by done.
  destruct (IH (if is_file (fs s1) item then all_files ++ [item] else all_files) (S i) s1)
    as (s' & e & -> & Hfs' & Hq').
  exists s', e. rewrite Hfs. split; [|split; [congruence|by eapply quiet_trans]].
  do 3 f_equal. cbn [List.filter].
  destruct (is_file (fs s) item); [by rewrite <- app_assoc|done].
Qed.

Lemma scan_files_run env self s :
  ∃ s', scan_files env self s = (s', Ok (scanned env (fs s))) ∧ fs s' = fs s ∧ quiet s s'.
Proof.
  unfold scan_files, scanned.
  rewrite (bind_ok _ _ _ _ _ (safe_print_run _ s)).
  destruct (rglob env) as [file_list|]; cbv beta iota.
  - destruct (scan_loop_run env self (length file_list) file_list [] 0
                (emit (Print ("正在扫描目录: " +:+ PathLib.str (source_dir self))) s))
      as (s1 & e & Hrun & Hfs & Hq).
    rewrite bind_assoc. rewrite (bind_ok _ _ _ _ _ Hrun). cbn [fst snd app].
    assert (quiet s s1) as Hq1.
    { eapply quiet_trans; [|exact Hq]. apply quiet_print; text_ne. }
    destruct e as [e|].
    + unfold safe_print_error.
      rewrite (bind_ok (_ ;;; ret _) _ s1 (emit (PrintError "扫描文件时出错: " e) s1)
                 (List.filter (is_file (fs s)) (reached env file_list)))
        by done.
      rewrite (bind_ok _ _ _ _ _ (safe_print_run _ _)).
      eexists. split; [done|]. split; [done|].
      eapply quiet_trans; [|apply quiet_print; text_ne].
      eapply quiet_trans; [exact Hq1|by apply quiet_emit].
    + rewrite (bind_ok (ret _) _ s1 s1
                 (List.filter (is_file (fs s)) (reached env file_list))) by done.
      rewrite (bind_ok _ _ _ _ _ (safe_print_run _ _)).
      eexists. split; [done|]. split; [done|].
      eapply quiet_trans; [exact Hq1|apply quiet_print; text_ne].
  - unfold safe_print_error.
    rewrite (bind_ok (_ ;;; ret []) _ _
               (emit (PrintError "扫描文件时出错: " OSError)
                  (emit (Print ("正在扫描目录: " +:+ PathLib.str (source_dir self))) s)) [])
      by done.
    rewrite (bind_ok _ _ _ _ _ (safe_print_run _ _)).
    eexists. split; [done|]. split; [done|].
    eapply quiet_trans; [|apply quiet_print; text_ne].
    eapply quiet_trans; [|by apply quiet_emit].
    apply quiet_print; text_ne.
Qed.

Lemma organize_files_unfold env self s :
  organize_files env self s =
  match preamble env self s with
  | (s0, Ok []) => (emit (Print "没有找到任何文件！") s0, Ok tt)
  | (s0, Ok all_files) => finish env self all_files (loop_entry all_files s0)
  | (s0, Raise e) => (s0, Raise e)
  end.
Proof.
  unfold organize_files, preamble, bind, safe_print, modify. cbv beta iota.
  match goal with |- context [create_target_directories env self ?x] =>
    destruct (create_target_directories env self x) as [s1 [[]|e]]; [|done]
  end.
  destruct (scan_files env self s1) as [s2 [[|f rest]|e]]; done.
Qed.

Lemma preamble_run env self s :
  ∃ s0 r, preamble env self s = (s0, r) ∧
          adds_dirs (S (length (target_dir self))) (fs s) (fs s0) ∧ quiet s s0 ∧
          (r = Ok (scanned env (fs s)) ∨ r = Raise OSError).
Proof.
  unfold preamble, create_target_directories.
  do 4 (rewrite (bind_ok _ _ _ _ _ (safe_print_run _ _))).
  rewrite bind_assoc. rewrite (bind_ok _ _ _ _ _ (safe_print_run _ _)).
  match goal with |- context [bind (create_dirs env self ?c) _ ?s1] =>
    destruct (create_dirs_run env self c s1) as (s2 & r & Hrun & Hadd & Hq & Hr);
    assert (quiet s s1) as Hq1
  end.
  { do 4 (eapply quiet_trans; [|apply quiet_print; text_ne]). apply quiet_print; text_ne. }
  destruct Hr as [->| ->].
  - rewrite (bind_ok _ _ _ _ _ Hrun).
    destruct (scan_files_run env self s2) as (s3 & -> & Hfs & Hq3).
    exists s3. eexists. split; [done|]. rewrite Hfs. split; [done|].
    split; [eauto using quiet_trans|left].
    unfold scanned. destruct (rglob env); [|done]. f_equal.
    apply filter_ext. intros p. by eapply adds_dirs_is_file.
  - rewrite (bind_raise _ _ _ _ _ Hrun).
    exists s2. eexists. split; [done|]. split; [done|]. split; [eauto using quiet_trans|by right].
Qed.

(** ** The end of the run *)

Lemma prints_refl s : prints s s.
Proof. split; [done|]. exists []. by rewrite app_nil_r. Qed.

Lemma prints_trans s1 s2 s3 : prints s1 s2 → prints s2 s3 → prints s1 s3.
Proof.
  intros [H12 (t1&E1&F1)] [H23 (t2&E2&F2)]. split; [by eapply same_but_output_trans|].
  exists (t1 ++ t2). split; [by rewrite E2, E1, app_assoc|by apply Forall_app].
Qed.

Lemma prints_print text s : prints s (emit (Print text) s).
Proof. split; [done|]. exists [Print text]. split; [done|by constructor]. Qed.

Lemma print_stats_run : ∀ (stats : list (string * nat)) (s : State),
  ∃ s', print_stats stats s = (s', Ok tt) ∧ prints s s'.
Proof.
  induction stats as [|[category count] rest IH]; intros s; cbn [print_stats].
  { exists s. split; [done|apply prints_refl]. }
  destruct (0 <? count)%nat.
  - rewrite (bind_ok _ _ _ _ _ (safe_print_run _ _)).
    destruct (IH (emit (Print ("  " +:+ category +:+ ": " +:+ pretty count +:+ " 个文件")) s))
      as (s' & -> & Hp).
    exists s'. split; [done|]. eapply prints_trans; [apply prints_print|done].
  - rewrite (bind_ok (ret tt) _ s s tt) by done.
    destruct (IH s) as (s' & -> & Hp). by exists s'.
Qed.

Lemma show_statistics_run self stats size s :
  ∃ s', show_statistics self stats size s = (s', Ok tt) ∧ prints s s'.
Proof.
  unfold show_statistics.
  do 4 (rewrite (bind_ok _ _ _ _ _ (safe_print_run _ _))).
  match goal with |- context [bind (print_stats stats) _ ?s1] =>
    destruct (print_stats_run stats s1) as (s2 & Hrun & Hp); assert (prints s s1) as Hp1
  end.
  { do 3 (eapply prints_trans; [|apply prints_print]). apply prints_print. }
  rewrite (bind_ok _ _ _ _ _ Hrun).
  rewrite (bind_ok _ _ _ _ _ (safe_print_run _ _)).
  match goal with |- context [bind get _ ?s3] => rewrite (bind_ok get _ s3 s3 s3) by done end.
  do 3 (rewrite (bind_ok _ _ _ _ _ (safe_print_run _ _))).
  rewrite safe_print_run.
  eexists. split; [done|].
  do 5 (eapply prints_trans; [|apply prints_print]).
  by eapply prints_trans.
Qed.

Lemma step_effect_total_files env self f s :
  total_files (step_effect env self f s) = total_files s.
Proof. unfold step_effect, partial_copy. by repeat case_match. Qed.

Lemma loop_effect_total_files env self all_files : ∀ s,
  total_files (loop_effect env self all_files s) = total_files s.
Proof.
  induction all_files as [|f rest IH]; intros s; [done|].
  cbn. unfold loop_effect in IH. by rewrite IH, step_effect_total_files.
Qed.

(** From the loop on: the state is the fold over the handled files, the
    output ends with the final callback call followed by printed lines,
    and the only exception is the [TypeError] of a missing callback. *)
Lemma finish_run env self all_files s :
  ∃ s', finish env self all_files s =
          (s', if progress_callback self then Ok tt else Raise TypeError) ∧
        same_but_output
          (loop_effect env self (take (handled env 1 all_files) all_files) s) s' ∧
        (progress_callback self = true →
         ∃ out tail,
           output s' =
             out ++ Progress (total_files s) (total_files s)
                      (if stop_requested env (total_files s) then STOPPED else COMPLETED)
                    :: tail ∧
           Forall printed tail).
Proof.
  unfold finish.
  destruct (process_loop_run env self all_files 1 s) as (s1 & Hrun & Hs1); [done|].
  rewrite (bind_ok _ _ _ _ _ Hrun). rewrite (bind_ok get _ s1 s1 s1) by done.
  assert (total_files s1 = total_files s) as ->.
  { destruct Hs1 as (_&_&_&->&_). apply loop_effect_total_files. }
  unfold call_progress_callback.
  destruct (progress_callback self) eqn:Hcb.
  - destruct (stop_requested env (total_files s)).
    + unfold modify at 1.
      rewrite (bind_ok _ _ s1 (emit (Progress (total_files s) (total_files s) STOPPED) s1) tt)
        by done.
      do 2 (rewrite (bind_ok _ _ _ _ _ (safe_print_run _ _))). rewrite safe_print_run.
      eexists. split; [done|]. split.
      * eapply same_but_output_trans; [exact Hs1|]. by repeat split.
      * intros _. exists (output s1). eexists. split; [cbn; by rewrite <- !app_assoc|].
        by repeat constructor.
    + rewrite (bind_ok _ _ s1 (emit (Progress (total_files s) (total_files s) COMPLETED) s1) tt)
        by done.
      destruct (show_statistics_run self (category_stats s1) (total_size s1)
                  (emit (Progress (total_files s) (total_files s) COMPLETED) s1))
        as (s2 & -> & [Hsame (tail & Hout & Htail)]).
      exists s2. split; [done|]. split.
      * eapply same_but_output_trans; [exact Hs1|].
        eapply same_but_output_trans; [|exact Hsame]. by repeat split.
      * intros _. exists (output s1), tail. split; [|done].
        rewrite Hout. cbn. by rewrite <- app_assoc.
  - assert (∀ k : unit → M unit, bind (raise TypeError) k s1 = (s1, Raise TypeError))
      as Hraise by done.
    destruct (stop_requested env (total_files s)); rewrite Hraise;
      (exists s1; split; [done|]; split; [done|]; done).
Qed.

(** ** Copy-only *)

Lemma step_effect_mono env self f s : fs s ⊆ fs (step_effect env self f s).
Proof.
  unfold step_effect, partial_copy.
  destruct (unique_filename_cases env (fs s) (target_dir self /: get_file_category f)
              (PathLib.name f)) as [(p & -> & Hfree & _)| ->];
    repeat case_match; try done; cbn; by apply insert_subseteq.
Qed.

Lemma loop_effect_mono env self all_files : ∀ s, fs s ⊆ fs (loop_effect env self all_files s).
Proof.
  induction all_files as [|f rest IH]; intros s; [done|].
  cbn. etrans; [apply (step_effect_mono env self f)|apply IH].
Qed.

Lemma organize_files_mono env self s : fs s ⊆ fs (organize_files env self s).1.
Proof.
  rewrite organize_files_unfold.
  destruct (preamble_run env self s) as (s0 & r & -> & Hadd & _ & _).
  apply adds_dirs_subseteq in Hadd.
  destruct r as [[|f rest]|e]; [done| |done].
  destruct (finish_run env self (f :: rest) (loop_entry (f :: rest) s0)) as (s' & -> & Hs' & _).
  destruct Hs' as [Hfs _]. cbn [fst]. rewrite Hfs.
  etrans; [exact Hadd|]. apply (loop_effect_mono env self _ (loop_entry (f :: rest) s0)).
Qed.

(** C9. Copy-only: whatever the run does (completed, cancelled or ended by
    an exception), every entry the file system had before [organize_files]
    is still there afterwards with the same content; no source file is
    modified or deleted. *)
Theorem organize_files_keeps_files env self (s : State) (p : Path) (n : node) :
  fs s !! p = Some n → fs (organize_files env self s).1 !! p = Some n.
Proof. intros Hp. eapply lookup_weaken; [exact Hp|apply organize_files_mono]. Qed.

(** ** No file found *)

(** C2, counterexample. An empty source directory: the run makes no
    callback call at all and prints no report. *)
Lemma zero_files_counterexample :
  ¬ zero_files_claim (Samples.calm []) Samples.with_callback ∅.
Proof.
  intros H. destruct (H eq_refl) as [_ Hrep]. revert Hrep. vm_compute.
  intros Hrep. repeat (apply elem_of_cons in Hrep as [Hrep|Hrep]; [discriminate Hrep|]).
  by apply elem_of_nil in Hrep.
Qed.

(** C2, as amended. When the scanner finds no file, [organize_files]
    stops right after the scan: it prints the no-file message and
    returns (or propagates the error of the directory creation). The
    processed and skipped lists stay empty, the file system only gains
    directories, and every event is a printed line other than the report
    title or a scanning-phase callback call: there is no final callback
    call and no statistics report. *)
Theorem organize_files_no_files (env : Env) (self : Engine) (files : gmap Path node) :
  scanned env files = [] →
  ∃ s0 s' r,
    organize_files env self (init files) = (s', r) ∧
    ((preamble env self (init files) = (s0, Ok []) ∧
      s' = emit (Print "没有找到任何文件！") s0 ∧ r = Ok tt) ∨
     (preamble env self (init files) = (s0, Raise OSError) ∧ s' = s0 ∧ r = Raise OSError)) ∧
    processed_files s' = [] ∧ skipped_files s' = [] ∧
    adds_dirs (S (length (target_dir self))) files (fs s') ∧
    Forall scan_event (output s').
Proof.
  intros Hscan. rewrite organize_files_unfold.
  destruct (preamble_run env self (init files)) as (s0 & r & Hpre & Hadd & Hq & Hr).
  rewrite Hpre. cbn [fs init] in Hr, Hadd. rewrite Hscan in Hr.
  destruct Hq as [(Hp&Hs&_) (evs & Hout & Hevs)]. cbn in Hp, Hs, Hout.
  destruct Hr as [->| ->].
  - exists s0. eexists. eexists. split; [done|]. split; [by left|].
    cbn. rewrite Hp, Hs, Hout. repeat split; try done.
    apply Forall_app. split; [done|]. constructor; [|done]. cbn. text_ne.
  - exists s0. eexists. eexists. split; [done|]. split; [by right|].
    rewrite Hp, Hs, Hout. by repeat split.
Qed.

(** ** A missing callback *)

(** C4. With no callback, a run that finds a file ends with [TypeError]:
    the final callback call is not guarded. *)
Theorem organize_files_without_callback :
  (organize_files (Samples.calm Samples.two_files_listing) Samples.without_callback
     (init Samples.two_files)).2 = Raise TypeError.
Proof. by vm_compute. Qed.

(** The same, for every run that finds a file. *)
Lemma organize_files_no_callback_raises (env : Env) (self : Engine)
    (files : gmap Path node) (s0 : State)
    (all_files : list Path) :
  progress_callback self = false →
  preamble env self (init files) = (s0, Ok all_files) →
  all_files ≠ [] →
  (organize_files env self (init files)).2 = Raise TypeError.
Proof.
  intros Hcb Hpre Hne. rewrite organize_files_unfold, Hpre.
  destruct all_files as [|f rest]; [done|].
  destruct (finish_run env self (f :: rest) (loop_entry (f :: rest) s0)) as (s' & -> & _).
  by rewrite Hcb.
Qed.

(** ** Skipped after the copy *)


(** ** Running twice *)


Lemma step_effect_copy env self f s data :
  no_faults env →
  fs s !! f = Some (File data) →
  fs s !! dest self f = None →
  step_effect env self f s =
  append_processed (dest self f)
    (set_category_stats (incr_stat (get_file_category f) (category_stats s))
       (set_total_size (total_size s + Z.of_nat (String.length data))
          (set_fs (<[dest self f := File data]> (fs s)) s))).
Proof.
  intros (Hr & Hc & Hst & Hex & _) Hsrc Hfree. unfold step_effect, is_dup. fold (dest self f).
  rewrite Hex. rewrite bool_decide_eq_false_2 by (rewrite Hfree; by intros [? ?]).
  cbn [andb].
  change (target_dir self /: get_file_category f /: PathLib.name f) with (dest self f) in *.
  unfold dest at 1. rewrite unique_filename_free by (done || apply Hex).
  by rewrite Hsrc, Hr, Hc, Hst.
Qed.

Lemma step_effect_dup env self f s data :
  no_faults env →
  fs s !! f = Some (File data) →
  fs s !! dest self f = Some (File data) →
  step_effect env self f s = append_skipped f s.
Proof.
  intros (Hr & _ & _ & Hex & _) Hsrc Hdst. unfold step_effect, is_dup, file_hash.
  fold (dest self f).
  rewrite Hex, Hsrc, Hdst, !Hr. rewrite bool_decide_eq_true_2 by done.
  rewrite String.eqb_refl.
  by rewrite (proj2 (String.eqb_neq _ _) (hexdigest_nonempty _)).
Qed.







(** ** Instances on the sample runs *)

Lemma get_file_category_witness :
  get_file_category ["src"; "photo.JPG"] = "图片" ∧
  get_file_category ["src"; "README"] = OTHER.
Proof.
  split.
  - apply (proj1 (get_file_category_spec ["src"; "photo.JPG"]) "图片"
             [".jpg"; ".jpeg"; ".png"; ".gif"; ".bmp"; ".webp"; ".svg"; ".ico"; ".tiff"]).
    + unfold file_categories. constructor.
    + vm_compute. constructor.
  - apply (proj2 (get_file_category_spec ["src"; "README"])).
    intros category extensions Hc Hs. unfold file_categories in Hc.
    change (Str.lower (PathLib.suffix ["src"; "README"])) with "" in Hs.
    repeat (apply elem_of_cons in Hc as [Hc|Hc];
            [injection Hc as -> ->;
             repeat (apply elem_of_cons in Hs as [Hs|Hs]; [discriminate Hs|]);
             by apply elem_of_nil in Hs|]).
    by apply elem_of_nil in Hc.
Defined.

Lemma hash_failure_not_duplicate_witness :
  (is_duplicate_file (Samples.calm []) ["src"; "gone.txt"] ["src"; "a.txt"]
     (init Samples.one_file)).2 = Ok false.
Proof.
  apply (hash_failure_not_duplicate (Samples.calm []) ["src"; "gone.txt"] ["src"; "a.txt"]
           (init Samples.one_file)).
  left. vm_compute. reflexivity.
Defined.

Lemma format_size_witness :
  ∃ (i : nat) (name : string),
    size_names !! i = Some name ∧
    (∀ j : nat, (j < i)%nat → (1024 ^ Z.of_nat (S j) ≤ 5125)%Z) ∧
    (i = 4%nat ∨ (5125 < 1024 ^ Z.of_nat (S i))%Z) ∧
    format_size 5125
    = format_2f (to_float 5125 # Z.to_pos (1024 ^ Z.of_nat i)) +:+ " " +:+ name ∧
    ((5125 < 2 ^ 53)%Z → to_float 5125 = 5125%Z) ∧
    (2 * Z.abs (to_float 5125 - 5125) ≤ 2 ^ (Z.log2 5125 - 52))%Z.
Proof.
  apply (proj2 (proj2 (proj2 (proj2 format_size_spec))) 5125%Z).
  split; [lia|]. vm_compute. reflexivity.
Defined.

Lemma organize_files_keeps_files_witness :
  fs (organize_files (Samples.calm Samples.two_files_listing) Samples.with_callback
        (init Samples.two_files)).1 !! ["src"; "y.JPG"] = Some (File "ABCDE").
Proof.
  apply (organize_files_keeps_files (Samples.calm Samples.two_files_listing)
           Samples.with_callback (init Samples.two_files) ["src"; "y.JPG"] (File "ABCDE")).
  vm_compute. reflexivity.
Defined.

Lemma organize_files_no_files_witness :
  ∃ s0 s' r,
    organize_files (Samples.calm []) Samples.with_callback (init Samples.one_file) = (s', r) ∧
    ((preamble (Samples.calm []) Samples.with_callback (init Samples.one_file) = (s0, Ok []) ∧
      s' = emit (Print "没有找到任何文件！") s0 ∧ r = Ok tt) ∨
     (preamble (Samples.calm []) Samples.with_callback (init Samples.one_file)
        = (s0, Raise OSError) ∧ s' = s0 ∧ r = Raise OSError)) ∧
    processed_files s' = [] ∧ skipped_files s' = [] ∧
    adds_dirs (S (length (target_dir Samples.with_callback))) Samples.one_file (fs s') ∧
    Forall scan_event (output s').
Proof.
  apply (organize_files_no_files (Samples.calm []) Samples.with_callback Samples.one_file).
  reflexivity.
Defined.


(** * Further properties *)

(** ** What [organize_files] can raise *)

Lemma create_dirs_fs_only (env : Env) self categories : ∀ s1 s2,
  fs s1 = fs s2 →
  (create_dirs env self categories s1).2 = (create_dirs env self categories s2).2 ∧
  fs (create_dirs env self categories s1).1 = fs (create_dirs env self categories s2).1.
Proof.
  induction categories as [|c rest IH]; intros s1 s2 Hfs; cbn [create_dirs]; [done|].
  unfold bind. rewrite !mkdir_unfold. rewrite Hfs.
  destruct (mkdir_p env [] (target_dir self /: c) (fs s2)) as [files [|]]; cbn; [|done].
  by apply IH.
Qed.

Lemma create_target_directories_fs_only (env : Env) self s1 s2 :
  fs s1 = fs s2 →
  (create_target_directories env self s1).2 = (create_target_directories env self s2).2 ∧
  fs (create_target_directories env self s1).1 = fs (create_target_directories env self s2).1.
Proof.
  intros Hfs. unfold create_target_directories.
  rewrite !(bind_ok _ _ _ _ _ (safe_print_run _ _)). by apply create_dirs_fs_only.
Qed.

Lemma create_target_directories_cases (env : Env) self s :
  (create_target_directories env self s).2 = Ok tt ∨
  (create_target_directories env self s).2 = Raise OSError.
Proof.
  unfold create_target_directories. rewrite (bind_ok _ _ _ _ _ (safe_print_run _ _)).
  match goal with |- context [create_dirs env self ?c ?s1] =>
    destruct (create_dirs_run env self c s1) as (s' & r & -> & _ & _ & Hr) end.
  exact Hr.
Qed.

Lemma preamble_result env self s :
  (preamble env self s).2 =
  match (create_target_directories env self s).2 with
  | Ok _ => Ok (scanned env (fs s))
  | Raise e => Raise e
  end.
Proof.
  unfold preamble.
  do 4 (rewrite (bind_ok _ _ _ _ _ (safe_print_run _ _))).
  match goal with |- context [bind (create_target_directories env self) _ ?s1] =>
    destruct (create_target_directories_fs_only env self s1 s) as [Hr Hfs]; [done|];
    destruct (create_target_directories env self s1) as [s2 r] eqn:Hrun
  end.
  cbn [fst snd] in Hr, Hfs. rewrite <- Hr.
  destruct r as [[]|e].
  - rewrite (bind_ok _ _ _ _ _ Hrun).
    destruct (scan_files_run env self s2) as (s3 & -> & _ & _). cbn [snd]. f_equal.
    unfold scanned. destruct (rglob env); [|done].
    apply filter_ext. intros p. unfold is_file. rewrite Hfs.
    unfold create_target_directories.
    rewrite (bind_ok _ _ _ _ _ (safe_print_run _ _)).
    match goal with |- context [create_dirs env self ?c ?s1] =>
      destruct (create_dirs_run env self c s1) as (s' & r & Hc & Hadd & _) end.
    rewrite Hc. cbn [fst]. cbn [fs emit] in Hadd.
    fold (is_file (fs s') p). fold (is_file (fs s) p). by eapply adds_dirs_is_file.
  - by rewrite (bind_raise _ _ _ _ _ Hrun).
Qed.

Lemma organize_files_outcome env self (s : State) :
  (organize_files env self s).2 =
  match (create_target_directories env self s).2 with
  | Raise e => Raise e
  | Ok _ =>
      match scanned env (fs s) with
      | [] => Ok tt
      | _ => if progress_callback self then Ok tt else Raise TypeError
      end
  end.
Proof.
  rewrite organize_files_unfold.
  pose proof (preamble_result env self s) as Hres.
  destruct (preamble env self s) as [s0 r]. cbn [snd] in Hres. subst r.
  destruct ((create_target_directories env self s).2) as [[]|e]; [|done].
  destruct (scanned env (fs s)) as [|f rest]; [done|].
  by destruct (finish_run env self (f :: rest) (loop_entry (f :: rest) s0)) as (s' & -> & _).
Qed.


(** ** The two lists and the statistics *)

(** The state a run ends in, the output left aside. *)
Lemma organize_files_state (env : Env) (self : Engine) (s s0 : State) (l : list Path) :
  preamble env self s = (s0, Ok l) →
  same_but_output (after_loop env self l s0) (organize_files env self s).1.
Proof.
  intros Hpre. rewrite organize_files_unfold, Hpre.
  destruct l as [|f rest]; [by repeat split|].
  by destruct (finish_run env self (f :: rest) (loop_entry (f :: rest) s0)) as (s' & -> & Hs' & _).
Qed.

(** The preamble of a run in which the directories can be created. *)
Lemma preamble_ok (env : Env) (self : Engine) (s : State) :
  (create_target_directories env self s).2 = Ok tt →
  ∃ s0, preamble env self s = (s0, Ok (scanned env (fs s))) ∧
        adds_dirs (S (length (target_dir self))) (fs s) (fs s0) ∧ quiet s s0.
Proof.
  intros Hok. pose proof (preamble_result env self s) as Hres. rewrite Hok in Hres.
  destruct (preamble_run env self s) as (s0 & r & Hpre & Hadd & Hq & _).
  rewrite Hpre in Hres. cbn [snd] in Hres. subst r. by exists s0.
Qed.

(** ... and of one in which they cannot. *)
Lemma organize_files_dirs_fail (env : Env) (self : Engine) (s : State) :
  (create_target_directories env self s).2 ≠ Ok tt →
  quiet s (organize_files env self s).1.
Proof.
  intros Hfail. rewrite organize_files_unfold.
  pose proof (preamble_result env self s) as Hres.
  destruct (preamble_run env self s) as (s0 & r & Hpre & _ & Hq & _).
  rewrite Hpre in Hres |- *. cbn [snd] in Hres.
  destruct ((create_target_directories env self s).2) as [[]|e]; [done|]. by subst r.
Qed.

Lemma loop_effect_ind (env : Env) (self : Engine) (P : State → Prop) (l : list Path) :
  (∀ f s, f ∈ l → P s → P (step_effect env self f s)) →
  ∀ s, P s → P (loop_effect env self l s).
Proof.
  induction l as [|f rest IH]; intros Hstep s Hs; [done|].
  cbn. apply IH.
  - intros g s' Hg. apply Hstep. by right.
  - apply Hstep; [left|done].
Qed.

Lemma step_effect_lists env self f s :
  (processed_files (step_effect env self f s) = processed_files s ∧
   skipped_files (step_effect env self f s) = skipped_files s ++ [f]) ∨
  (∃ p, processed_files (step_effect env self f s) = processed_files s ++ [p] ∧
        skipped_files (step_effect env self f s) = skipped_files s).
Proof. unfold step_effect, partial_copy. repeat case_match; cbn; eauto. Qed.

Lemma loop_effect_lists env self (l : list Path) : ∀ s,
  length (processed_files (loop_effect env self l s)) +
    length (skipped_files (loop_effect env self l s))
  = length (processed_files s) + length (skipped_files s) + length l ∧
  ∃ sk, skipped_files (loop_effect env self l s) = skipped_files s ++ sk ∧ sk ⊆ l.
Proof.
  induction l as [|f rest IH]; intros s.
  { cbn. split; [lia|]. exists []. by rewrite app_nil_r. }
  cbn [loop_effect foldl]. fold (loop_effect env self rest (step_effect env self f s)).
  destruct (IH (step_effect env self f s)) as (Hlen & sk & Hsk & Hsub).
  destruct (step_effect_lists env self f s) as [[Hp Hs]|(p & Hp & Hs)].
  - rewrite Hp, Hs in Hlen. rewrite Hs in Hsk. rewrite length_app in Hlen. cbn in *.
    split; [lia|]. exists (f :: sk). rewrite Hsk, <- app_assoc. split; [done|].
    intros x Hx. apply elem_of_cons in Hx as [->|Hx]; [left|right; by apply Hsub].
  - rewrite Hp, Hs in Hlen. rewrite Hs in Hsk. rewrite length_app in Hlen. cbn in *.
    split; [lia|]. exists sk. split; [done|]. intros x Hx. right. by apply Hsub.
Qed.

(** X2. In a run of a new instance whose directories can be created,
    every file that reaches the loop ends up in exactly one of the two
    lists: the lengths of the processed and of the skipped list add up to
    the number of files found, or to the number handled before the stop
    request; every skipped entry is one of the files found. *)
Theorem every_file_accounted (env : Env) (self : Engine) (files : gmap Path node) :
  (create_target_directories env self (init files)).2 = Ok tt →
  let s' := (organize_files env self (init files)).1 in
  (length (processed_files s') + length (skipped_files s') =
   match stop_at env with
   | Some k => k `min` length (scanned env files)
   | None => length (scanned env files)
   end)%nat ∧
  skipped_files s' ⊆ scanned env files.
Proof.
  intros Hok s'.
  destruct (preamble_ok env self (init files) Hok) as (s0 & Hpre & _ & [(Hp0 & Hs0 & _) _]).
  cbn [fs init] in Hpre. cbn in Hp0, Hs0.
  destruct (organize_files_state env self (init files) s0 _ Hpre) as (_ & Hp & Hs & _).
  fold s' in Hp, Hs. rewrite Hp, Hs. unfold after_loop.
  destruct (scanned env files) as [|f rest] eqn:Hl.
  { rewrite Hp0, Hs0. cbn. split; [by destruct (stop_at env) as [[|k]|]|done]. }
  rewrite <- Hl.
  destruct (loop_effect_lists env self (take (handled env 1 (scanned env files))
              (scanned env files)) (loop_entry (scanned env files) s0))
    as (Hlen & sk & Hsk & Hsub).
  cbn [processed_files skipped_files loop_entry set_total_size set_category_stats
         set_total_files] in Hlen, Hsk.
  rewrite Hp0, Hs0 in Hlen. rewrite Hs0 in Hsk. cbn in Hlen, Hsk.
  split.
  - rewrite Hlen, length_take. unfold handled. destruct (stop_at env) as [k|]; lia.
  - rewrite Hsk. intros x Hx. apply Hsub in Hx. by eapply subseteq_take.
Qed.

Lemma first_category_in_table table sfx :
  first_category table sfx = OTHER ∨ first_category table sfx ∈ table.*1.
Proof.
  induction table as [|[c exts] rest IH]; [by left|]. cbn.
  destruct (negb (c =? OTHER)%string && str_in sfx exts); [right; left|].
  destruct IH as [IH|IH]; [by left|right; by right].
Qed.

(** The category of a file is always one of the seven keys of the table. *)
Lemma get_file_category_in_table (file_path : Path) :
  get_file_category file_path ∈ file_categories.*1.
Proof.
  unfold get_file_category.
  destruct (first_category_in_table file_categories (Str.lower (PathLib.suffix file_path)))
    as [->|H]; [|done].
  cbn. repeat (first [left|right]).
Qed.

Lemma incr_stat_keys category stats : (incr_stat category stats).*1 = stats.*1.
Proof.
  induction stats as [|[c n] rest IH]; [done|]. cbn.
  destruct (c =? category)%string; cbn; [done|by rewrite IH].
Qed.

Lemma incr_stat_sum category stats :
  category ∈ stats.*1 →
  sum_list (incr_stat category stats).*2 = S (sum_list stats.*2).
Proof.
  induction stats as [|[c n] rest IH]; intros Hin; [by apply elem_of_nil in Hin|].
  cbn. destruct (String.eqb_spec c category) as [->|Hne]; cbn; [done|].
  apply elem_of_cons in Hin as [Hin|Hin]; [by cbn in Hin|].
  rewrite IH by done. lia.
Qed.

Lemma total_bytes_app files ps qs :
  total_bytes files (ps ++ qs) = (total_bytes files ps + total_bytes files qs)%Z.
Proof.
  unfold total_bytes in *. induction ps as [|p ps IH]; cbn [foldr app]; [done|].
  rewrite IH. lia.
Qed.

Lemma total_bytes_insert files (p : Path) (n : node) (ps : list Path) :
  files !! p = None →
  (∀ q, q ∈ ps → is_Some (files !! q)) →
  total_bytes (<[p := n]> files) ps = total_bytes files ps.
Proof.
  intros Hp. unfold total_bytes in *.
  induction ps as [|q ps IH]; intros Hall; [done|]. cbn [foldr].
  rewrite IH by (intros x Hx; apply Hall; by right). f_equal.
  unfold size_at. rewrite lookup_insert_ne; [done|].
  intros ->. destruct (Hall q) as [x Hx]; [left|]. congruence.
Qed.

(** Projections of the state after field updates. *)
Tactic Notation "fields" :=
  cbn [fs output processed_files skipped_files total_files category_stats total_size
       set_fs emit append_processed append_skipped set_total_files set_category_stats
       set_total_size loop_entry init].
Tactic Notation "fields" "in" hyp(H) :=
  cbn [fs output processed_files skipped_files total_files category_stats total_size
       set_fs emit append_processed append_skipped set_total_files set_category_stats
       set_total_size loop_entry init] in H.

Lemma step_effect_counters env self f s :
  counters_agree s → counters_agree (step_effect env self f s).
Proof.
  intros (Hsum & Hsize & Hin & Hkeys). unfold step_effect, partial_copy.
  destruct (exists_fault env _); [done|].
  destruct (unique_filename_cases env (fs s) (target_dir self /: get_file_category f)
              (PathLib.name f)) as [(p & -> & Hfree & _)| ->]; [|by repeat case_match].
  destruct (is_dup env (fs s) f _); [done|].
  destruct (fs s !! f) as [[data|]|] eqn:Hf; [|done|done].
  destruct (read_fault env f); [done|].
  assert (∀ d q, q ∈ processed_files s → is_Some (<[p := File d]> (fs s) !! q)) as Hin'.
  { intros d q Hq. apply lookup_insert_is_Some. destruct (decide (p = q)); [by left|right].
    split; [done|by apply Hin]. }
  destruct (copy_fault env f p).
  { destruct (copy_partial env f p) as [part|]; [|done].
    repeat split; fields; try done; [by rewrite total_bytes_insert|apply Hin']. }
  destruct (stat_fault env f).
  - repeat split; fields; try done; [by rewrite total_bytes_insert|apply Hin'].
  - repeat split; fields.
    + rewrite incr_stat_sum, length_app; cbn; [lia|].
      rewrite Hkeys. apply get_file_category_in_table.
    + rewrite total_bytes_app, total_bytes_insert by done. cbn [total_bytes foldr].
      unfold size_at. rewrite lookup_insert_eq. lia.
    + intros q Hq. apply elem_of_app in Hq as [Hq|Hq]; [by apply Hin'|].
      apply list_elem_of_singleton in Hq as ->. by rewrite lookup_insert_eq.
    + by rewrite incr_stat_keys.
Qed.

(** X3. The statistics agree with the processed list: after a run of a
    new instance the category counters add up to the number of processed
    files, and the total size is the sum of the sizes of the files that
    the processed list names, as they are in the target. *)
Theorem statistics_agree (env : Env) (self : Engine) (files : gmap Path node) :
  let s' := (organize_files env self (init files)).1 in
  sum_list (category_stats s').*2 = length (processed_files s') ∧
  total_size s' = total_bytes (fs s') (processed_files s').
Proof.
  intros s'.
  destruct (create_target_directories_cases env self (init files)) as [Hok|Hfail].
  - destruct (preamble_ok env self (init files) Hok)
      as (s0 & Hpre & _ & [(Hp0 & Hs0 & _ & Hc0 & Hz0) _]).
    fields in Hp0; fields in Hc0; fields in Hz0.
    destruct (organize_files_state env self (init files) s0 _ Hpre)
      as (Hfs & Hp & _ & _ & Hc & Hz).
    fold s' in Hfs, Hp, Hc, Hz. rewrite Hfs, Hp, Hc, Hz. unfold after_loop.
    destruct (scanned env (fs (init files))) as [|f rest]; [by rewrite Hp0, Hc0, Hz0|].
    set (l := f :: rest).
    assert (counters_agree (loop_effect env self (take (handled env 1 l) l) (loop_entry l s0)))
      as (Hsum & Hsize & _).
    { apply loop_effect_ind; [intros; by apply step_effect_counters|].
      repeat split; fields; rewrite ?Hp0; try done. intros p Hp'. by apply elem_of_nil in Hp'. }
    done.
  - assert (quiet (init files) s') as [(Hp & _ & _ & Hc & Hz) _].
    { apply organize_files_dirs_fail. by rewrite Hfail. }
    fields in Hp; fields in Hc; fields in Hz. by rewrite Hp, Hc, Hz.
Qed.

(** ** Copies *)

Lemma placed_copy_insert self files files' l (p q : Path) (n : node) :
  files' !! q = None → placed_copy self files files' l p →
  placed_copy self files (<[q := n]> files') l p.
Proof.
  intros Hq (Hnew & f & data & name' & Hf & Hsrc & Hdst & Hp & Hname).
  split; [done|]. exists f, data, name'. repeat split; try done.
  rewrite lookup_insert_ne; [done|congruence].
Qed.

Lemma step_effect_copies env self files l f s :
  f ∈ l → (∀ g, g ∈ l → ∃ data, files !! g = Some (File data)) →
  copies_ok self files l s → copies_ok self files l (step_effect env self f s).
Proof.
  intros Hf Hsrc (Hsub & Hnd & Hall). unfold step_effect, partial_copy.
  destruct (exists_fault env _); [done|].
  destruct (unique_filename_cases env (fs s) (target_dir self /: get_file_category f)
              (PathLib.name f)) as [(p & -> & Hfree & Hform)| ->]; [|by repeat case_match].
  destruct (is_dup env (fs s) f _); [done|].
  destruct (fs s !! f) as [[data|]|] eqn:Hlook; [|done|done].
  destruct (read_fault env f); [done|].
  assert (∀ d, files ⊆ <[p := File d]> (fs s)) as Hsub'.
  { intros d. etrans; [exact Hsub|by apply insert_subseteq]. }
  assert (∀ d q, q ∈ processed_files s →
                 placed_copy self files (<[p := File d]> (fs s)) l q) as Hall'.
  { intros d q Hq. apply placed_copy_insert; [done|by apply Hall]. }
  destruct (copy_fault env f p).
  { destruct (copy_partial env f p) as [part|]; [|done].
    split; [apply Hsub'|]. split; [done|]. apply Hall'. }
  destruct (stat_fault env f); [split; [apply Hsub'|]; split; [done|apply Hall']|].
  split; [apply Hsub'|]. fields. split.
  - apply NoDup_app. split; [done|]. split; [|apply NoDup_singleton].
    intros q Hq Hq'. apply list_elem_of_singleton in Hq' as ->.
    destruct (Hall p Hq) as (_ & _ & d & _ & _ & _ & Hd & _). congruence.
  - intros q Hq. apply elem_of_app in Hq as [Hq|Hq]; [by apply Hall'|].
    apply list_elem_of_singleton in Hq as ->. split.
    + destruct (files !! p) as [x|] eqn:Hx; [|done].
      eapply lookup_weaken in Hx; [|exact Hsub]. congruence.
    + destruct (Hsrc f Hf) as [d0 Hd0].
      assert (data = d0) as ->.
      { eapply lookup_weaken in Hd0; [|exact Hsub]. congruence. }
      destruct Hform as [[_ ->]|(_ & n & Hn & -> & _)].
      * exists f, d0, (PathLib.name f). repeat split; try done; [|by left].
        by rewrite lookup_insert_eq.
      * eexists f, d0, _. repeat split; try done; [by rewrite lookup_insert_eq|].
        right. by exists n.
Qed.

(** X4. A run of a new instance never overwrites: the processed list has
    no path twice, and each of its paths did not exist before the run and
    holds afterwards the very bytes of one of the files found, in the
    category directory of that file, under the name of the file or under
    that name with a counter before the extension. *)
Theorem processed_are_fresh_copies (env : Env) (self : Engine) (files : gmap Path node) :
  let s' := (organize_files env self (init files)).1 in
  NoDup (processed_files s') ∧
  ∀ p, p ∈ processed_files s' → placed_copy self files (fs s') (scanned env files) p.
Proof.
  intros s'.
  destruct (create_target_directories_cases env self (init files)) as [Hok|Hfail].
  - destruct (preamble_ok env self (init files) Hok) as (s0 & Hpre & Hadd & [(Hp0 & _) _]).
    fields in Hp0. fields in Hadd. fields in Hpre.
    destruct (organize_files_state env self (init files) s0 _ Hpre) as (Hfs & Hp & _).
    fold s' in Hfs, Hp. rewrite Hfs, Hp. unfold after_loop.
    destruct (scanned env files) as [|f rest] eqn:Hl.
    { rewrite Hp0. split; [constructor|]. intros p Hp'. by apply elem_of_nil in Hp'. }
    rewrite <- Hl.
    assert (copies_ok self files (scanned env files)
              (loop_effect env self
                 (take (handled env 1 (scanned env files)) (scanned env files))
                 (loop_entry (scanned env files) s0))) as (_ & Hnd & Hall); [|done].
    assert (∀ g, g ∈ scanned env files → ∃ data, files !! g = Some (File data)) as Hsrc.
    { intros g Hg. unfold scanned in Hg. destruct (rglob env); [|by apply elem_of_nil in Hg].
      apply list_elem_of_In, filter_In in Hg as [_ Hg]. unfold is_file in Hg.
      destruct (files !! g) as [[data|]|]; try done. by exists data. }
    apply (loop_effect_ind env self (copies_ok self files (scanned env files))).
    + intros g s Hg. apply step_effect_copies; [|done]. by eapply subseteq_take.
    + split; [fields; by eapply adds_dirs_subseteq|]. fields. rewrite Hp0.
      split; [constructor|]. intros p Hp'. by apply elem_of_nil in Hp'.
  - assert (quiet (init files) s') as [(Hp & _) _].
    { apply organize_files_dirs_fail. by rewrite Hfail. }
    fields in Hp. rewrite Hp. split; [constructor|]. intros p Hp'. by apply elem_of_nil in Hp'.
Qed.

(** ** The calls of the progress callback *)

Lemma progress_of_app out1 out2 :
  progress_of (out1 ++ out2) = progress_of out1 ++ progress_of out2.
Proof. apply omap_app. Qed.



























(** ** The category directories *)

Lemma all_dirs_end rest : ∀ walked files,
  rest ≠ [] → all_dirs walked rest files → files !! (walked ++ rest) = Some Dir.
Proof.
  induction rest as [|c rest IH]; intros walked files Hne Hall; [done|].
  destruct Hall as [Hc Hrest]. destruct rest as [|c' rest'].
  - exact Hc.
  - specialize (IH (walked /: c) files ltac:(done) Hrest).
    unfold PathLib.div in IH. by rewrite <- app_assoc in IH.
Qed.

Lemma create_dirs_all (env : Env) self categories : ∀ s s',
  create_dirs env self categories s = (s', Ok tt) →
  ∀ c, c ∈ categories → fs s' !! (target_dir self /: c) = Some Dir.
Proof.
  induction categories as [|c rest IH]; intros s s' Hrun x Hx; [by apply elem_of_nil in Hx|].
  cbn [create_dirs] in Hrun. revert Hrun. unfold bind at 1. rewrite mkdir_unfold.
  destruct (mkdir_p_adds env (target_dir self /: c) [] (fs s)) as [_ Hall].
  destruct (mkdir_p env [] (target_dir self /: c) (fs s)) as [files [|]]; cbn [fst snd] in *;
    [|done].
  rewrite (bind_ok _ _ _ _ _ (safe_print_run _ _)).
  intros Hrun. apply elem_of_cons in Hx as [->|Hx]; [|by eapply IH].
  specialize (Hall eq_refl).
  destruct (create_dirs_run env self rest
              (emit (Print ("创建目录: " +:+ PathLib.str (target_dir self /: c)))
                 (set_fs files s))) as (sx & rx & Hx & Haddx & _).
  rewrite Hx in Hrun. injection Hrun as -> ->.
  eapply lookup_weaken; [|by eapply adds_dirs_subseteq].
  apply (all_dirs_end (target_dir self /: c) [] files); [|done].
  unfold PathLib.div. by destruct (target_dir self).
Qed.

(** X7. When [create_target_directories] succeeds, the directory a file
    is to be copied to exists, whatever the file: each of the seven
    category directories is there. Only missing directories were added
    (no entry was changed or removed), and calling it again succeeds and
    changes nothing. *)
Theorem create_target_directories_ok (env : Env) (self : Engine) (s s' : State) :
  create_target_directories env self s = (s', Ok tt) →
  (∀ file_path : Path,
     fs s' !! (target_dir self /: get_file_category file_path) = Some Dir) ∧
  (∀ p, fs s' !! p = fs s !! p ∨ (fs s !! p = None ∧ fs s' !! p = Some Dir)) ∧
  (create_target_directories env self s').2 = Ok tt ∧
  fs (create_target_directories env self s').1 = fs s'.
Proof.
  unfold create_target_directories.
  rewrite !(bind_ok _ _ _ _ _ (safe_print_run _ _)). intros Hrun.
  split; [|split].
  - intros file_path. eapply create_dirs_all; [exact Hrun|].
    apply get_file_category_in_table.
  - destruct (create_dirs_run env self (map fst file_categories)
                (emit (Print "正在创建目标目录结构...") s)) as (sx & rx & Hx & Hadd & _).
    rewrite Hx in Hrun. injection Hrun as -> ->. intros p.
    destruct (Hadd p) as [E|(E1 & E2 & _)]; [by left|by right].
  - destruct (create_dirs_again env env self (map fst file_categories) _ s'
                (emit (Print "正在创建目标目录结构...") s') Hrun)
      as (s1 & -> & Hfs & _); done.
Qed.






(** ** Duplicates and collisions *)


Lemma same_name_same_category (f g : Path) :
  PathLib.name f = PathLib.name g → get_file_category f = get_file_category g.
Proof. intros H. unfold get_file_category, PathLib.suffix. by rewrite H. Qed.

Lemma candidate_not_literal target_dir filename (n : nat) :
  candidate target_dir filename n ≠ target_dir /: filename.
Proof.
  intros H. apply div_inj in H. apply (f_equal String.length) in H.
  rewrite <- (stem_suffix filename) in H at 3.
  rewrite !str_length_app in H. cbn in H. lia.
Qed.

(** The step for a file whose literal destination is taken by other
    content and whose first candidate is free. *)
Lemma step_effect_renamed env self f s data other :
  no_faults env →
  fs s !! f = Some (File data) →
  fs s !! dest self f = Some (File other) →
  hexdigest (md5 env data) ≠ hexdigest (md5 env other) →
  fs s !! candidate (target_dir self /: get_file_category f) (PathLib.name f) 1 = None →
  step_effect env self f s =
  append_processed (candidate (target_dir self /: get_file_category f) (PathLib.name f) 1)
    (set_category_stats (incr_stat (get_file_category f) (category_stats s))
       (set_total_size (total_size s + Z.of_nat (String.length data))
          (set_fs (<[candidate (target_dir self /: get_file_category f) (PathLib.name f) 1
                     := File data]> (fs s)) s))).
Proof.
  intros (Hr & Hc & Hst & Hex & _) Hsrc Hdst Hne Hfree. unfold step_effect, is_dup, file_hash.
  fold (dest self f). rewrite Hex, Hsrc, Hdst, !Hr.
  rewrite (proj2 (String.eqb_neq _ _) Hne), andb_false_r. cbn [andb].
  unfold unique_filename, PathLib.stem, PathLib.suffix. rewrite name_div.
  change (target_dir self /: get_file_category f /: PathLib.name f) with (dest self f).
  rewrite (unique_loop_first_end env (fs s) (target_dir self /: get_file_category f)
             (PathLib.name f) (S (size (fs s))) (dest self f) 1 1);
    [|lia|lia|by right|intros m Hm; lia|by rewrite Hdst].
  by rewrite Hex, Hc, Hst.
Qed.

(** X10. Two source files of one name and different digests, met one
    after the other while their literal destination and its first
    candidate are free: the first is copied under its own name, the
    second under the name with [_1] before the extension; both are
    processed, none is skipped, and each copy has the bytes of its
    source. *)
Theorem same_name_different_content (env : Env) (self : Engine) (f g : Path) (s : State)
    (d1 d2 : string) :
  stop_at env = None → no_faults env →
  PathLib.name f = PathLib.name g →
  fs s !! f = Some (File d1) → fs s !! g = Some (File d2) →
  hexdigest (md5 env d1) ≠ hexdigest (md5 env d2) →
  fs s !! dest self f = None →
  fs s !! candidate (target_dir self /: get_file_category f) (PathLib.name f) 1 = None →
  ∃ s', process_loop env self 1 [f; g] s = (s', Ok tt) ∧
        processed_files s' =
          processed_files s ++
          [dest self f; candidate (target_dir self /: get_file_category f) (PathLib.name f) 1] ∧
        skipped_files s' = skipped_files s ∧
        fs s' = <[candidate (target_dir self /: get_file_category f) (PathLib.name f) 1
                  := File d2]> (<[dest self f := File d1]> (fs s)).
Proof.
  intros Hstop Hnf Hname Hf Hg Hne Hfree Hfree1.
  destruct (process_loop_run env self [f; g] 1 s) as (s' & Hrun & Hs'); [done|].
  exists s'. split; [done|].
  unfold handled in Hs'. rewrite Hstop in Hs'. cbn [length take loop_effect foldl] in Hs'.
  rewrite (step_effect_copy env self f s d1 Hnf Hf Hfree) in Hs'.
  pose proof (same_name_same_category f g Hname) as Hcat.
  assert (dest self g = dest self f) as Hdest by (unfold dest; by rewrite Hname, Hcat).
  rewrite (step_effect_renamed env self g _ d2 d1) in Hs'; try done.
  - destruct Hs' as (-> & -> & -> & _). fields.
    rewrite <- Hcat, <- Hname, <- app_assoc. done.
  - fields. rewrite lookup_insert_ne; [done|congruence].
  - fields. rewrite Hdest. by rewrite lookup_insert_eq.
  - fields. rewrite <- Hcat, <- Hname. rewrite lookup_insert_ne; [done|].
    intros Heq. symmetry in Heq. by apply candidate_not_literal in Heq.
Qed.

(** X11. Two source files of one name and the same bytes, met one after
    the other while their literal destination is free: the first is
    copied, the second is found to be a duplicate of that copy and
    skipped; one file is written. *)
Theorem same_name_same_content (env : Env) (self : Engine) (f g : Path) (s : State)
    (data : string) :
  stop_at env = None → no_faults env →
  PathLib.name f = PathLib.name g →
  fs s !! f = Some (File data) → fs s !! g = Some (File data) →
  fs s !! dest self f = None →
  ∃ s', process_loop env self 1 [f; g] s = (s', Ok tt) ∧
        processed_files s' = processed_files s ++ [dest self f] ∧
        skipped_files s' = skipped_files s ++ [g] ∧
        fs s' = <[dest self f := File data]> (fs s).
Proof.
  intros Hstop Hnf Hname Hf Hg Hfree.
  destruct (process_loop_run env self [f; g] 1 s) as (s' & Hrun & Hs'); [done|].
  exists s'. split; [done|].
  unfold handled in Hs'. rewrite Hstop in Hs'. cbn [length take loop_effect foldl] in Hs'.
  rewrite (step_effect_copy env self f s data Hnf Hf Hfree) in Hs'.
  pose proof (same_name_same_category f g Hname) as Hcat.
  assert (dest self g = dest self f) as Hdest by (unfold dest; by rewrite Hname, Hcat).
  rewrite (step_effect_dup env self g _ data) in Hs'; try done.
  - by destruct Hs' as (-> & -> & -> & _).
  - fields. rewrite lookup_insert_ne; [done|congruence].
  - fields. rewrite Hdest. by rewrite lookup_insert_eq.
Qed.

(** ** Small sizes *)



(** ** The command line *)

Lemma mkdir_run (env : Env) (p : Path) (s : State) :
  ∃ s' r, mkdir env p s = (s', r) ∧ (r = Ok tt ∨ r = Raise OSError) ∧
          adds_dirs (length p) (fs s) (fs s') ∧ same_fields s s' ∧ output s' = output s ∧
          (r = Ok tt → p ≠ [] → fs s' !! p = Some Dir).
Proof.
  rewrite mkdir_unfold. destruct (mkdir_p_adds env p [] (fs s)) as [Hadd Hall].
  destruct (mkdir_p env [] p (fs s)) as [files [|]]; cbn [fst snd] in *.
  - eexists _, _. split; [done|].
    split; [by left|]. split; [done|]. split; [by repeat split|]. split; [done|].
    intros _ Hne. fields. by apply (all_dirs_end p [] files); [|apply Hall].
  - eexists _, _. split; [done|]. split; [by right|]. split; [done|].
    split; [by repeat split|]. split; [done|]. done.
Qed.

(** X13. [main] copies nothing unless the source exists and the third
    answer is [y] or [Y] (after [strip]): otherwise the two lists are as
    before and the only change of the file system is the target
    directory, which is created, with its missing ancestors, before the
    question is asked, so that it stays when the answer is no. The only
    exception is the [OSError] of a target that cannot be created. *)
Theorem main_declined (strip : string → string) (path_of : string → Path) (env : Env)
    (line1 line2 line3 : string) (s : State) :
  (Cli.os_path_exists path_of env (strip line1) s).2 = Ok false ∨
  Str.lower (strip line3) ≠ "y" →
  ∃ s' r,
    Cli.main strip path_of env line1 line2 line3 s = (s', r) ∧
    (r = Ok tt ∨ r = Raise OSError) ∧
    (∀ p, fs s' !! p = fs s !! p ∨ (fs s !! p = None ∧ fs s' !! p = Some Dir)) ∧
    processed_files s' = processed_files s ∧ skipped_files s' = skipped_files s ∧
    progress_of (output s') = progress_of (output s) ∧
    ((Cli.os_path_exists path_of env (strip line1) s).2 = Ok true → r = Ok tt →
     path_of (strip line2) ≠ [] →
     is_Some (fs s' !! path_of (strip line2))).
Proof.
  intros Hwhy. unfold Cli.main. cbv zeta.
  do 2 (rewrite (bind_ok _ _ _ _ _ (safe_print_run _ _))).
  set (s1 := emit _ (emit _ s)).
  assert (∀ p sx, fs sx = fs s →
            ∃ b, Cli.os_path_exists path_of env p sx = (sx, Ok b) ∧
                 (Cli.os_path_exists path_of env p s).2 = Ok b) as Hex.
  { intros p sx Hfs. unfold Cli.os_path_exists, bind, get, ret. cbn. rewrite Hfs. eauto. }
  destruct (Hex (strip line1) s1) as (b1 & Hrun1 & Hb1); [done|].
  rewrite (bind_ok _ _ _ _ _ Hrun1). rewrite Hb1.
  assert (∀ t sx, progress_of (output (emit (Print t) sx)) = progress_of (output sx)) as Hpr.
  { intros t sx. cbn. by rewrite progress_of_app, app_nil_r. }
  destruct b1; cbn [negb].
  2:{ rewrite safe_print_run.
      eexists _, _. split; [done|]. split; [by left|]. split; [by left|].
      split; [done|]. split; [done|]. split; [by (subst s1; rewrite !Hpr)|]. by intros [=]. }
  destruct (Hex (strip line2) s1) as (b2 & Hrun2 & Hb2); [done|].
  rewrite (bind_ok _ _ _ _ _ Hrun2).
  destruct Hwhy as [Hno|Hno]; [congruence|].
  rewrite (proj2 (String.eqb_neq _ _) Hno). cbn [negb].
  destruct b2; cbn [negb].
  - rewrite (bind_ok (ret tt) _ s1 s1 tt) by done.
    do 2 (rewrite (bind_ok _ _ _ _ _ (safe_print_run _ _))). rewrite safe_print_run.
    eexists _, _. split; [done|]. split; [by left|]. split; [by left|].
    split; [done|]. split; [done|]. split; [by (subst s1; rewrite !Hpr)|].
    intros _ _ Hne. fields. revert Hb2. unfold Cli.os_path_exists, bind, get, ret. cbn.
    destruct (strip line2); [done|]. intros [= Hdec].
    apply andb_true_iff in Hdec as [_ Hdec]. by apply bool_decide_eq_true in Hdec.
  - rewrite bind_assoc. rewrite (bind_ok _ _ _ _ _ (safe_print_run _ _)).
    unfold Cli.makedirs. destruct (strip line2) as [|c rest] eqn:Hline.
    + rewrite (bind_raise (raise OSError) _ _ _ OSError) by done.
      eexists _, _. split; [done|]. split; [by right|]. split; [by left|].
      split; [done|]. split; [done|]. split; [by (subst s1; rewrite !Hpr)|]. done.
    + set (sx := emit _ s1).
      rewrite (bind_assoc get). rewrite (bind_ok get _ sx sx sx) by done.
      destruct (exists_fault env (path_of (String c rest)) &&
                bool_decide (is_Some (fs sx !! path_of (String c rest)))).
      { rewrite (bind_raise (raise OSError) _ _ _ OSError) by done.
        eexists _, _. split; [done|]. split; [by right|]. split; [by left|].
        split; [done|]. split; [done|]. split; [by (subst sx s1; rewrite !Hpr)|]. done. }
      destruct (mkdir_run env (path_of (String c rest)) sx)
        as (s2 & r & Hrun & Hr & Hadd & (Hp & Hs & _) & Hout & Hdir).
      destruct Hr as [->| ->].
      * rewrite (bind_ok _ _ _ _ _ Hrun).
        do 2 (rewrite (bind_ok _ _ _ _ _ (safe_print_run _ _))). rewrite safe_print_run.
        eexists _, _. split; [done|]. split; [by left|]. fields. split.
        { intros p. destruct (Hadd p) as [E|(E1 & E2 & _)]; [by left|by right]. }
        split; [done|]. split; [done|]. split.
        { rewrite !progress_of_app, Hout. cbn. rewrite !progress_of_app. cbn.
          by rewrite !app_nil_r. }
        intros _ _ Hne. rewrite Hdir by done. done.
      * rewrite (bind_raise _ _ _ _ _ Hrun).
        eexists _, _. split; [done|]. split; [by right|]. split.
        { intros p. destruct (Hadd p) as [E|(E1 & E2 & _)]; [by left|by right]. }
        split; [done|]. split; [done|]. split; [|done].
        rewrite Hout. cbn. rewrite !progress_of_app. cbn. by rewrite !app_nil_r.
Qed.

(** X14. When the source and the target exist and the answer is [y] or
    [Y], [main] runs the engine without a callback: if the category
    directories can be created, it returns normally only when no file is
    found, and ends with [TypeError] as soon as the scan finds a file (a
    regular file among the listed entries that it reached). *)
Theorem main_confirmed (strip : string → string) (path_of : string → Path) (env : Env)
    (line1 line2 line3 : string) (s : State) :
  (Cli.os_path_exists path_of env (strip line1) s).2 = Ok true →
  (Cli.os_path_exists path_of env (strip line2) s).2 = Ok true →
  Str.lower (strip line3) = "y" →
  (create_target_directories env (Cli.organizer path_of (strip line1) (strip line2)) s).2
    = Ok tt →
  (Cli.main strip path_of env line1 line2 line3 s).2 =
  match List.filter (is_file (fs s)) (reached env (default [] (rglob env))) with
  | [] => Ok tt
  | _ => Raise TypeError
  end.
Proof.
  intros Hsrc Htgt Hyes Hdirs. unfold Cli.main. cbv zeta.
  do 2 (rewrite (bind_ok _ _ _ _ _ (safe_print_run _ _))).
  set (s1 := emit _ (emit _ s)).
  assert (∀ p sx, fs sx = fs s →
            ∃ b, Cli.os_path_exists path_of env p sx = (sx, Ok b) ∧
                 (Cli.os_path_exists path_of env p s).2 = Ok b) as Hex.
  { intros p sx Hfs. unfold Cli.os_path_exists, bind, get, ret. cbn. rewrite Hfs. eauto. }
  destruct (Hex (strip line1) s1) as (b1 & Hrun1 & Hb1); [done|].
  rewrite (bind_ok _ _ _ _ _ Hrun1).
  assert (b1 = true) as -> by congruence. cbn [negb].
  destruct (Hex (strip line2) s1) as (b2 & Hrun2 & Hb2); [done|].
  rewrite (bind_ok _ _ _ _ _ Hrun2).
  assert (b2 = true) as -> by congruence. cbn [negb].
  rewrite (bind_ok (ret tt) _ s1 s1 tt) by done.
  do 2 (rewrite (bind_ok _ _ _ _ _ (safe_print_run _ _))).
  rewrite Hyes. cbn [String.eqb Ascii.eqb Bool.eqb negb andb].
  rewrite organize_files_outcome.
  match goal with |- context [create_target_directories env ?e ?sx] =>
    destruct (create_target_directories_fs_only env e sx s) as [-> _]; [done|]
  end.
  rewrite Hdirs. unfold scanned. fields. subst s1. fields.
  by destruct (rglob env).
Qed.

(** ** The last lines of a run *)

Lemma print_stats_output : ∀ (stats : list (string * nat)) (s : State),
  ∃ s', print_stats stats s = (s', Ok tt) ∧ same_but_output s s' ∧
        output s' = output s ++ stats_lines stats.
Proof.
  induction stats as [|[category count] rest IH]; intros s; cbn [print_stats].
  { exists s. split; [done|]. split; [done|]. unfold stats_lines. cbn. by rewrite app_nil_r. }
  unfold stats_lines in *. cbn [List.filter snd fst].
  destruct (0 <? count)%nat.
  - rewrite (bind_ok _ _ _ _ _ (safe_print_run _ _)).
    destruct (IH (emit (Print ("  " +:+ category +:+ ": " +:+ pretty count +:+ " 个文件")) s))
      as (s' & -> & Hsame & Hout).
    exists s'. split; [done|]. split; [by eapply same_but_output_trans|].
    rewrite Hout. cbn [output emit fmap list_fmap fst snd]. by rewrite <- app_assoc.
  - rewrite (bind_ok (ret tt) _ s s tt) by done.
    destruct (IH s) as (s' & -> & Hsame & Hout). by exists s'.
Qed.

Lemma show_statistics_output (self : Engine) (stats : list (string * nat)) (size : Z)
    (s : State) :
  ∃ s', show_statistics self stats size s = (s', Ok tt) ∧ same_but_output s s' ∧
        output s' = output s ++
          report_lines self stats (length (processed_files s))
            (length (skipped_files s)) size.
Proof.
  unfold show_statistics.
  do 4 (rewrite (bind_ok _ _ _ _ _ (safe_print_run _ _))).
  match goal with |- context [bind (print_stats stats) _ ?s1] =>
    destruct (print_stats_output stats s1) as (s2 & Hrun & Hsame & Hout)
  end.
  rewrite (bind_ok _ _ _ _ _ Hrun).
  rewrite (bind_ok _ _ _ _ _ (safe_print_run _ _)).
  match goal with |- context [bind get _ ?s3] => rewrite (bind_ok get _ s3 s3 s3) by done end.
  do 3 (rewrite (bind_ok _ _ _ _ _ (safe_print_run _ _))).
  rewrite safe_print_run.
  pose proof Hsame as Hsame'.
  destruct Hsame as (_ & Hp & Hs & _). fields in Hp. fields in Hs. fields in Hout.
  eexists. split; [done|]. split.
  - destruct Hsame' as (Hf & _ & _ & Ht & Hc & Hz). fields in Hf. fields in Ht.
    fields in Hc. fields in Hz. by repeat split.
  - fields. rewrite Hp, Hs, Hout. unfold report_lines, REPORT_TITLE.
    rewrite <- !app_assoc. done.
Qed.

Lemma finish_output (env : Env) (self : Engine) (all_files : list Path) (s : State) :
  progress_callback self = true →
  ∃ out,
    output (finish env self all_files s).1 =
    out ++
    (if stop_requested env (total_files s)
     then Progress (total_files s) (total_files s) STOPPED
          :: stop_notice (finish env self all_files s).1
     else Progress (total_files s) (total_files s) COMPLETED
          :: report self (finish env self all_files s).1).
Proof.
  intros Hcb. unfold finish.
  destruct (process_loop_run env self all_files 1 s) as (s1 & Hrun & Hs1); [done|].
  rewrite (bind_ok _ _ _ _ _ Hrun). rewrite (bind_ok get _ s1 s1 s1) by done.
  assert (total_files s1 = total_files s) as ->.
  { destruct Hs1 as (_&_&_&->&_). apply loop_effect_total_files. }
  unfold call_progress_callback. rewrite Hcb.
  destruct (stop_requested env (total_files s)).
  - rewrite (bind_ok _ _ s1 (emit (Progress (total_files s) (total_files s) STOPPED) s1) tt)
      by done.
    do 2 (rewrite (bind_ok _ _ _ _ _ (safe_print_run _ _))). rewrite safe_print_run.
    exists (output s1). unfold stop_notice. cbn [fst]. fields. by rewrite <- !app_assoc.
  - rewrite (bind_ok _ _ s1 (emit (Progress (total_files s) (total_files s) COMPLETED) s1) tt)
      by done.
    destruct (show_statistics_output self (category_stats s1) (total_size s1)
                (emit (Progress (total_files s) (total_files s) COMPLETED) s1))
      as (s2 & -> & (_ & Hp & Hs & _ & Hc & Hz) & Hout).
    fields in Hp. fields in Hs. fields in Hc. fields in Hz. fields in Hout.
    exists (output s1). cbn [fst]. unfold report. rewrite Hp, Hs, Hc, Hz, Hout.
    by rewrite <- app_assoc.
Qed.

(** X15. The last lines of a run of a new instance that was given a
    callback and found files: the output ends with the final callback
    call followed, when the run completed, by the statistics report
    (title, one line for each category with a positive count in the order
    of the table, the lengths of the two lists, the formatted total size
    and the target directory), and, when it was stopped, by the stop
    notice with the lengths of the two lists and nothing else; the
    numbers shown are those of the state the run ends in. *)
Theorem final_report (env : Env) (self : Engine) (files : gmap Path node) :
  progress_callback self = true →
  (create_target_directories env self (init files)).2 = Ok tt →
  scanned env files ≠ [] →
  let s' := (organize_files env self (init files)).1 in
  let n := length (scanned env files) in
  ∃ out,
    output s' =
    out ++ (if stop_requested env n
            then Progress n n STOPPED :: stop_notice s'
            else Progress n n COMPLETED :: report self s').
Proof.
  intros Hcb Hok Hne. cbv zeta.
  destruct (preamble_ok env self (init files) Hok) as (s0 & Hpre & _).
  fields in Hpre. rewrite organize_files_unfold, Hpre.
  destruct (scanned env files) as [|f rest] eqn:Hl; [done|].
  destruct (finish_output env self (f :: rest) (loop_entry (f :: rest) s0) Hcb) as [out Hout].
  exists out. exact Hout.
Qed.

(** ** Cancellation *)

(** C5, counterexample. An instance without a callback whose run is
    stopped after the first of two files ends with [TypeError] at the
    final callback call; and when the first file is a duplicate of what
    the target holds, the run stopped after it leaves the processed list
    empty. *)
Lemma cancellation_counterexample :
  ¬ cancellation_claim (with_stop (Some 1%nat) (Samples.calm Samples.two_files_listing))
      Samples.without_callback Samples.two_files 1 ∧
  ¬ cancellation_claim (with_stop (Some 1%nat) (Samples.calm [["src"; "a.txt"]]))
      Samples.with_callback Cases.already_copied 1.
Proof.
  split.
  - intros [H _]. revert H. by vm_compute.
  - intros (_ & H & _). revert H. by vm_compute.
Qed.



(** ** Writes stay in the target tree *)







(** ** Running twice, on the file system as it is found *)






(** ** Instances of the further properties on the sample runs *)

Lemma every_file_accounted_witness :
  let env := with_stop (Some 1%nat) (Samples.calm Samples.two_files_listing) in
  let self := Samples.with_callback in
  let files := Samples.two_files in
  let s' := (organize_files env self (init files)).1 in
  (length (processed_files s') + length (skipped_files s') =
   match stop_at env with
   | Some k => k `min` length (scanned env files)
   | None => length (scanned env files)
   end)%nat ∧
  skipped_files s' ⊆ scanned env files.
Proof.
  intros env self files. apply (every_file_accounted env self files).
  vm_compute. reflexivity.
Defined.

Lemma processed_are_fresh_copies_witness :
  let env := Samples.calm Samples.two_files_listing in
  let self := Samples.with_callback in
  let files := Samples.two_files in
  placed_copy self files (fs (organize_files env self (init files)).1) (scanned env files)
    ["dst"; "文档"; "x.txt"].
Proof.
  intros env self files. apply (proj2 (processed_are_fresh_copies env self files)).
  vm_compute. apply list_elem_of_here.
Defined.


Lemma create_target_directories_ok_witness :
  let env := Samples.calm [] in
  let self := Samples.with_callback in
  let s := init Samples.one_file in
  let s' := (create_target_directories env self s).1 in
  (∀ file_path : Path,
     fs s' !! (target_dir self /: get_file_category file_path) = Some Dir) ∧
  (∀ p, fs s' !! p = fs s !! p ∨ (fs s !! p = None ∧ fs s' !! p = Some Dir)) ∧
  (create_target_directories env self s').2 = Ok tt ∧
  fs (create_target_directories env self s').1 = fs s'.
Proof.
  intros env self s s'. apply (create_target_directories_ok env self s s').
  vm_compute. reflexivity.
Defined.



Lemma same_name_different_content_witness :
  let env := Samples.calm Samples.same_name_listing in
  let self := Samples.with_callback in
  let f := ["src"; "p"; "a.txt"] in
  let g := ["src"; "q"; "a.txt"] in
  let s := init Samples.same_name in
  ∃ s', process_loop env self 1 [f; g] s = (s', Ok tt) ∧
        processed_files s' =
          processed_files s ++
          [dest self f; candidate (target_dir self /: get_file_category f) (PathLib.name f) 1] ∧
        skipped_files s' = skipped_files s ∧
        fs s' = <[candidate (target_dir self /: get_file_category f) (PathLib.name f) 1
                  := File "Y"]> (<[dest self f := File "X"]> (fs s)).
Proof.
  intros env self f g s. apply (same_name_different_content env self f g s "X" "Y").
  - reflexivity.
  - by repeat split.
  - vm_compute. reflexivity.
  - vm_compute. reflexivity.
  - vm_compute. reflexivity.
  - vm_compute. discriminate.
  - vm_compute. reflexivity.
  - vm_compute. reflexivity.
Defined.

Lemma same_name_same_content_witness :
  let env := Samples.calm Samples.same_name_listing in
  let self := Samples.with_callback in
  let f := ["src"; "p"; "a.txt"] in
  let g := ["src"; "q"; "a.txt"] in
  let s := init Cases.same_bytes in
  ∃ s', process_loop env self 1 [f; g] s = (s', Ok tt) ∧
        processed_files s' = processed_files s ++ [dest self f] ∧
        skipped_files s' = skipped_files s ++ [g] ∧
        fs s' = <[dest self f := File "X"]> (fs s).
Proof.
  intros env self f g s. apply (same_name_same_content env self f g s "X").
  - reflexivity.
  - by repeat split.
  - vm_compute. reflexivity.
  - vm_compute. reflexivity.
  - vm_compute. reflexivity.
  - vm_compute. reflexivity.
Defined.


Lemma main_declined_witness :
  let strip := Cases.no_blanks in
  let path_of := Cases.one_component in
  let env := Samples.calm [["src"; "a.txt"]] in
  let s := init Cases.both_dirs in
  ∃ s' r,
    Cli.main strip path_of env "src" "dst" "n" s = (s', r) ∧
    (r = Ok tt ∨ r = Raise OSError) ∧
    (∀ p, fs s' !! p = fs s !! p ∨ (fs s !! p = None ∧ fs s' !! p = Some Dir)) ∧
    processed_files s' = processed_files s ∧ skipped_files s' = skipped_files s ∧
    progress_of (output s') = progress_of (output s) ∧
    ((Cli.os_path_exists path_of env (strip "src") s).2 = Ok true → r = Ok tt →
     path_of (strip "dst") ≠ [] →
     is_Some (fs s' !! path_of (strip "dst"))).
Proof.
  intros strip path_of env s.
  apply (main_declined strip path_of env "src" "dst" "n" s).
  right. vm_compute. discriminate.
Defined.

Lemma main_confirmed_witness :
  let strip := Cases.no_blanks in
  let path_of := Cases.one_component in
  let env := Samples.calm [["src"; "a.txt"]] in
  let s := init Cases.both_dirs in
  (Cli.main strip path_of env "src" "dst" "Y" s).2 =
  match List.filter (is_file (fs s)) (reached env (default [] (rglob env))) with
  | [] => Ok tt
  | _ => Raise TypeError
  end.
Proof.
  intros strip path_of env s.
  apply (main_confirmed strip path_of env "src" "dst" "Y" s); vm_compute; reflexivity.
Defined.

Lemma final_report_witness :
  let env := Samples.calm Samples.two_files_listing in
  let self := Samples.with_callback in
  let files := Samples.two_files in
  let s' := (organize_files env self (init files)).1 in
  let n := length (scanned env files) in
  ∃ out,
    output s' =
    out ++ (if stop_requested env n
            then Progress n n STOPPED :: stop_notice s'
            else Progress n n COMPLETED :: report self s').
Proof.
  intros env self files. apply (final_report env self files).
  - reflexivity.
  - vm_compute. reflexivity.
  - vm_compute. discriminate.
Defined.

